(** * Web Audio WAV recorder: capture session and WAV encoder

    A shallow embedding of [src/lib/audio-recorder.ts] (class
    [AudioRecorder]) and the properties of its state machine and of the
    byte layout produced by [createWAVBlob].

    JavaScript Numbers are IEEE-754 binary64 values; they are modelled
    with the Standard Library's executable specification [spec_float]
    ([SFmul], [SFcompare], ...) at precision 53.  Elements of a
    [Float32Array] are binary32 values, widened when they are read. *)

From Stdlib Require Import ZArith Lia Bool String Ascii DecimalString DecimalNat.
From Stdlib Require Import SpecFloat.
From stdpp Require Import base list.

Local Open Scope Z_scope.

(** ** JavaScript Numbers (binary64) *)

Module Number.

Definition prec : Z := 53.
Definition emax : Z := 1024.

Definition number := spec_float.

Definition NaN : number := S754_nan.
Definition pInfinity : number := S754_infinity false.
Definition nInfinity : number := S754_infinity true.

(** An integer literal of the source ([1], [-1], [0x8000], [0x7FFF]). *)
Definition of_Z (z : Z) : number := binary_normalize prec emax z 0 false.

Definition is_nan (x : number) : bool :=
  match x with S754_nan => true | _ => false end.

Definition is_poszero (x : number) : bool :=
  match x with S754_zero false => true | _ => false end.

Definition is_negzero (x : number) : bool :=
  match x with S754_zero true => true | _ => false end.

(** [x < y], [x <= y] and [x * y] on Numbers. *)
Definition lt (x y : number) : bool := SFltb x y.
Definition le (x y : number) : bool := SFleb x y.
Definition mul (x y : number) : number := SFmul prec emax x y.

(** [Math.min(a, b)] (ECMA-262, 21.3.2.25): NaN if an argument is NaN;
    otherwise scan the arguments from [+Infinity], where [-0] counts as
    smaller than [+0]. *)
Definition min_step (lowest n : number) : number :=
  if is_negzero n && is_poszero lowest then n
  else if lt n lowest then n else lowest.

Definition Math_min (a b : number) : number :=
  if is_nan a || is_nan b then NaN
  else min_step (min_step pInfinity a) b.

(** [Math.max(a, b)] (ECMA-262, 21.3.2.24). *)
Definition max_step (highest n : number) : number :=
  if is_poszero n && is_negzero highest then n
  else if lt highest n then n else highest.

Definition Math_max (a b : number) : number :=
  if is_nan a || is_nan b then NaN
  else max_step (max_step nInfinity a) b.

(** [truncate(x)] for a finite [x]: the integer part, rounding toward
    zero ([Z.shiftl] by a negative amount shifts right). *)
Definition truncate (x : number) : Z :=
  match x with
  | S754_finite s m e => cond_Zopp s (Z.shiftl (Zpos m) e)
  | _ => 0
  end.

(** [ToInt16] (ECMA-262, 7.1.9). *)
Definition ToInt16 (x : number) : Z :=
  match x with
  | S754_finite _ _ _ =>
      let int16bit := truncate x mod 2 ^ 16 in
      if 2 ^ 15 <=? int16bit then int16bit - 2 ^ 16 else int16bit
  | _ => 0
  end.

End Number.

(** ** Float32Array elements (binary32) *)

Module Float32.

Definition float32 := spec_float.

(** A well-formed binary32 value: 24 bits of precision, exponent of the
    infinities 128. *)
Definition is_float32 (x : float32) : bool := valid_binary 24 128 x.

(** Reading an element yields the Number with the same value. *)
Definition to_number (x : float32) : Number.number :=
  match x with
  | S754_finite s m e => binary_round Number.prec Number.emax s m e
  | _ => x
  end.

Definition zero : float32 := S754_zero false.

End Float32.

Definition Float32Array := list Float32.float32.

(** ** Exceptions *)

(** The result of a call that may throw: the returned value, or the
    message of the thrown error. *)
Inductive result (A : Type) : Type :=
  | Ok (a : A)
  | Throw (message : string).
Arguments Ok {A} a.
Arguments Throw {A} message.

Definition is_ok {A} (r : result A) : bool :=
  match r with Ok _ => true | Throw _ => false end.

Definition bind_result {A B} (r : result A) (k : A -> result B) : result B :=
  match r with
  | Ok a => k a
  | Throw e => Throw e
  end.

#[export] Instance result_ret : MRet result := fun _ a => Ok a.
#[export] Instance result_bind : MBind result := fun _ _ k r => bind_result r k.

(** ** ArrayBuffer and DataView *)

Module DataView.

(** The bytes of the underlying [ArrayBuffer], each in [0, 256). *)
Definition view := list Z.

(** [new ArrayBuffer(n)]: [n] zero bytes. *)
Definition new_ArrayBuffer (n : Z) : view := replicate (Z.to_nat n) 0.

Definition byteLength (v : view) : Z := Z.of_nat (length v).

(** Integer conversions of ECMA-262, 7.1.7 to 7.1.11, on integral
    Numbers. *)
Definition ToUint8 (z : Z) : Z := z mod 2 ^ 8.
Definition ToUint16 (z : Z) : Z := z mod 2 ^ 16.
Definition ToUint32 (z : Z) : Z := z mod 2 ^ 32.

(** The [n] bytes of [z], least significant first
    ([NumericToRawBytes] with [isLittleEndian = true]; a negative Int16
    is stored in two's complement, which [mod 256] of the floored
    quotients gives). *)
Fixpoint le_bytes (n : nat) (z : Z) : list Z :=
  match n with
  | O => []
  | S n' => z mod 256 :: le_bytes n' (z / 256)
  end.

(** [SetViewValue]: a [RangeError] unless the element lies inside the
    view, else the raw bytes replace those at [byteOffset]. *)
Definition SetViewValue (v : view) (byteOffset : Z) (rawBytes : list Z)
  : result view :=
  if (0 <=? byteOffset) && (byteOffset + Z.of_nat (length rawBytes) <=? byteLength v)
  then Ok (take (Z.to_nat byteOffset) v ++ rawBytes
             ++ drop (Z.to_nat byteOffset + length rawBytes)%nat v)
  else Throw "RangeError".

Definition setUint8 (v : view) (byteOffset value : Z) : result view :=
  SetViewValue v byteOffset (le_bytes 1 (ToUint8 value)).

(** The setters below are the source's calls with [littleEndian = true]. *)
Definition setUint16 (v : view) (byteOffset value : Z) : result view :=
  SetViewValue v byteOffset (le_bytes 2 (ToUint16 value)).

Definition setUint32 (v : view) (byteOffset value : Z) : result view :=
  SetViewValue v byteOffset (le_bytes 4 (ToUint32 value)).

Definition setInt16 (v : view) (byteOffset : Z) (value : Number.number)
  : result view :=
  SetViewValue v byteOffset (le_bytes 2 (Number.ToInt16 value)).

(** Readers, used to state what the header holds. *)
Fixpoint le_value (bs : list Z) : Z :=
  match bs with
  | [] => 0
  | b :: bs' => b + 256 * le_value bs'
  end.

Definition slice (v : view) (byteOffset : nat) (n : nat) : list Z :=
  take n (drop byteOffset v).

Definition getUint16 (v : view) (byteOffset : nat) : Z := le_value (slice v byteOffset 2).
Definition getUint32 (v : view) (byteOffset : nat) : Z := le_value (slice v byteOffset 4).

(** A signed 16-bit read. *)
Definition getInt16 (v : view) (byteOffset : nat) : Z :=
  let u := getUint16 v byteOffset in
  if 2 ^ 15 <=? u then u - 2 ^ 16 else u.

End DataView.

(** The character codes of a string ([charCodeAt]). *)
Fixpoint charCodes (s : string) : list Z :=
  match s with
  | EmptyString => []
  | String c s' => Z.of_N (N_of_ascii c) :: charCodes s'
  end.

(** ** The browser's audio platform *)

(** The objects the recorder holds.  A track reports the settings the
    device actually negotiated ([getSettings()]). *)
Record MediaStreamTrack := {
  settings_sampleRate : Z;
  settings_channelCount : Z
}.

Record MediaStream := { getTracks : list MediaStreamTrack }.

Record AudioContext := { context_sampleRate : Z }.

Record MediaStreamAudioSourceNode := { source_mediaStream : MediaStream }.

Record ScriptProcessorNode := {
  bufferSize : Z;
  numberOfInputChannels : Z;
  numberOfOutputChannels : Z
}.

Record MediaTrackConstraints := {
  constraint_sampleRate : Z;
  constraint_channelCount : Z;
  echoCancellation : bool;
  noiseSuppression : bool;
  autoGainControl : bool
}.

(** What the browser answers to the calls that can fail; a rejected
    promise or a thrown exception is [Throw]. *)
Record Platform := {
  getUserMedia : MediaTrackConstraints -> result MediaStream;
  new_AudioContext : Z -> result AudioContext;
  createMediaStreamSource :
    AudioContext -> MediaStream -> result MediaStreamAudioSourceNode;
  createScriptProcessor :
    AudioContext -> Z -> Z -> Z -> result ScriptProcessorNode
}.

(** Calls on platform objects that return nothing; they are recorded in
    the order they are made. *)
Inductive Call : Type :=
  | source_connect (s : MediaStreamAudioSourceNode) (p : ScriptProcessorNode)
  | processor_connect_destination (p : ScriptProcessorNode) (c : AudioContext)
  | processor_disconnect (p : ScriptProcessorNode)
  | source_disconnect (s : MediaStreamAudioSourceNode)
  | context_close (c : AudioContext)
  | track_stop (t : MediaStreamTrack).

(** The block of samples an [onaudioprocess] event carries
    ([event.inputBuffer]): [numberOfChannels] is the number of channel
    arrays. *)
Record AudioBuffer := {
  inputBuffer_length : nat;
  channels : list Float32Array
}.

Definition numberOfChannels (b : AudioBuffer) : nat := length (channels b).

(** ** The class [AudioRecorder] *)

Record AudioRecorderOptions := {
  options_sampleRate : option Z;
  options_channelCount : option Z;
  options_bitDepth : option Z
}.

Record AudioRecorder := {
  audioContext : option AudioContext;
  mediaStream : option MediaStream;
  sourceNode : option MediaStreamAudioSourceNode;
  processorNode : option ScriptProcessorNode;
  audioBuffer : list Float32Array;
  isRecording : bool;
  isPaused : bool;
  sampleRate : Z;
  channelCount : Z;
  bitDepth : Z
}.

Definition set_audioContext (v : option AudioContext) (r : AudioRecorder) :=
  {| audioContext := v; mediaStream := mediaStream r; sourceNode := sourceNode r;
     processorNode := processorNode r; audioBuffer := audioBuffer r;
     isRecording := isRecording r; isPaused := isPaused r;
     sampleRate := sampleRate r; channelCount := channelCount r; bitDepth := bitDepth r |}.

Definition set_mediaStream (v : option MediaStream) (r : AudioRecorder) :=
  {| audioContext := audioContext r; mediaStream := v; sourceNode := sourceNode r;
     processorNode := processorNode r; audioBuffer := audioBuffer r;
     isRecording := isRecording r; isPaused := isPaused r;
     sampleRate := sampleRate r; channelCount := channelCount r; bitDepth := bitDepth r |}.

Definition set_sourceNode (v : option MediaStreamAudioSourceNode) (r : AudioRecorder) :=
  {| audioContext := audioContext r; mediaStream := mediaStream r; sourceNode := v;
     processorNode := processorNode r; audioBuffer := audioBuffer r;
     isRecording := isRecording r; isPaused := isPaused r;
     sampleRate := sampleRate r; channelCount := channelCount r; bitDepth := bitDepth r |}.

Definition set_processorNode (v : option ScriptProcessorNode) (r : AudioRecorder) :=
  {| audioContext := audioContext r; mediaStream := mediaStream r; sourceNode := sourceNode r;
     processorNode := v; audioBuffer := audioBuffer r;
     isRecording := isRecording r; isPaused := isPaused r;
     sampleRate := sampleRate r; channelCount := channelCount r; bitDepth := bitDepth r |}.

Definition set_audioBuffer (v : list Float32Array) (r : AudioRecorder) :=
  {| audioContext := audioContext r; mediaStream := mediaStream r; sourceNode := sourceNode r;
     processorNode := processorNode r; audioBuffer := v;
     isRecording := isRecording r; isPaused := isPaused r;
     sampleRate := sampleRate r; channelCount := channelCount r; bitDepth := bitDepth r |}.

Definition set_isRecording (v : bool) (r : AudioRecorder) :=
  {| audioContext := audioContext r; mediaStream := mediaStream r; sourceNode := sourceNode r;
     processorNode := processorNode r; audioBuffer := audioBuffer r;
     isRecording := v; isPaused := isPaused r;
     sampleRate := sampleRate r; channelCount := channelCount r; bitDepth := bitDepth r |}.

Definition set_isPaused (v : bool) (r : AudioRecorder) :=
  {| audioContext := audioContext r; mediaStream := mediaStream r; sourceNode := sourceNode r;
     processorNode := processorNode r; audioBuffer := audioBuffer r;
     isRecording := isRecording r; isPaused := v;
     sampleRate := sampleRate r; channelCount := channelCount r; bitDepth := bitDepth r |}.

(** *** Methods: state, exceptions and platform calls

    A method runs on the object [this]; it returns or throws, leaves the
    object in a new state (field writes made before a throw stay), and
    makes platform calls. *)
Record outcome (A : Type) := Outcome {
  returned : result A;
  this_after : AudioRecorder;
  calls : list Call
}.
Arguments Outcome {A} returned this_after calls.
Arguments returned {A} o.
Arguments this_after {A} o.
Arguments calls {A} o.

Definition M (A : Type) : Type := AudioRecorder -> outcome A.

#[export] Instance M_ret : MRet M := fun _ a this => Outcome (Ok a) this [].

#[export] Instance M_bind : MBind M := fun _ _ k m this =>
  match m this with
  | Outcome (Ok a) this1 c1 =>
      match k a this1 with
      | Outcome r this2 c2 => Outcome r this2 (c1 ++ c2)
      end
  | Outcome (Throw e) this1 c1 => Outcome (Throw e) this1 c1
  end.

Definition get_this : M AudioRecorder := fun this => Outcome (Ok this) this [].

Definition modify (f : AudioRecorder -> AudioRecorder) : M unit :=
  fun this => Outcome (Ok tt) (f this) [].

Definition throw {A} (message : string) : M A :=
  fun this => Outcome (Throw message) this [].

Definition call (c : Call) : M unit := fun this => Outcome (Ok tt) this [c].

Definition lift {A} (r : result A) : M A := fun this => Outcome r this [].

(** [try { body } catch (error) { handler }]. *)
Definition try_catch {A} (body : M A) (handler : string -> M A) : M A :=
  fun this =>
    match body this with
    | Outcome (Ok a) this1 c1 => Outcome (Ok a) this1 c1
    | Outcome (Throw e) this1 c1 =>
        match handler e this1 with
        | Outcome r this2 c2 => Outcome r this2 (c1 ++ c2)
        end
    end.

(** [if (cond) { body }] for a statement. *)
Definition when (cond : bool) (body : M unit) : M unit :=
  if cond then body else mret tt.

(** [for (const x of xs) { body(x) }]. *)
Fixpoint for_of {A} (xs : list A) (body : A -> M unit) : M unit :=
  match xs with
  | [] => mret tt
  | x :: xs' => body x;; for_of xs' body
  end.

(** [options.f || d]: the default replaces a missing or zero value. *)
Definition or_default (o : option Z) (d : Z) : Z :=
  match o with
  | Some v => if v =? 0 then d else v
  | None => d
  end.

Definition new_AudioRecorder (options : AudioRecorderOptions) : AudioRecorder :=
  {| audioContext := None; mediaStream := None; sourceNode := None;
     processorNode := None; audioBuffer := []; isRecording := false;
     isPaused := false;
     sampleRate := or_default (options_sampleRate options) 44100;
     channelCount := or_default (options_channelCount options) 2;
     bitDepth := or_default (options_bitDepth options) 16 |}.

(** *** The [onaudioprocess] callback *)

(** The inner loop [for (i = 0; i < channelData.length; i++)
    audioData[i * numberOfChannels + channel] = channelData[i]], from
    index [i] on.  A typed-array store outside the array is ignored, as
    is a list insert. *)
Fixpoint copy_channel (nCh channel i : nat) (channelData : Float32Array)
    (audioData : Float32Array) : Float32Array :=
  match channelData with
  | [] => audioData
  | x :: rest =>
      copy_channel nCh channel (S i) rest (<[(i * nCh + channel)%nat := x]> audioData)
  end.

(** The outer loop over the channels, from channel [channel] on. *)
Fixpoint interleave_from (nCh channel : nat) (chans : list Float32Array)
    (audioData : Float32Array) : Float32Array :=
  match chans with
  | [] => audioData
  | channelData :: rest =>
      interleave_from nCh (S channel) rest (copy_channel nCh channel 0 channelData audioData)
  end.

Definition interleave (inputBuffer : AudioBuffer) : Float32Array :=
  let audioData :=
    replicate (inputBuffer_length inputBuffer * numberOfChannels inputBuffer) Float32.zero in
  interleave_from (numberOfChannels inputBuffer) 0 (channels inputBuffer) audioData.

Definition onaudioprocess (inputBuffer : AudioBuffer) : M unit :=
  this ← get_this;
  when (isRecording this && negb (isPaused this))
    (let audioData := interleave inputBuffer in
     modify (fun this => set_audioBuffer (audioBuffer this ++ [audioData]) this)).

(** *** [initialize]

    The awaited [getUserMedia] is taken as one step: nothing else touches
    the object while it is pending. *)
Definition initialize (P : Platform) : M unit :=
  try_catch
    (this ← get_this;
     stream ← lift (getUserMedia P
       {| constraint_sampleRate := sampleRate this;
          constraint_channelCount := channelCount this;
          echoCancellation := false;
          noiseSuppression := false;
          autoGainControl := false |});
     modify (set_mediaStream (Some stream));;
     context ← lift (new_AudioContext P (sampleRate this));
     modify (set_audioContext (Some context));;
     source ← lift (createMediaStreamSource P context stream);
     modify (set_sourceNode (Some source));;
     processor ← lift (createScriptProcessor P context 4096
                         (channelCount this) (channelCount this));
     modify (set_processorNode (Some processor));;
     call (source_connect source processor);;
     call (processor_connect_destination processor context))
    (fun error => throw (String.append "Failed to initialize audio recorder: " error)).

(** *** [startRecording], [pauseRecording], [resumeRecording] *)

Definition startRecording : M unit :=
  this ← get_this;
  if negb (bool_decide (is_Some (audioContext this)))
     || negb (bool_decide (is_Some (processorNode this)))
  then throw "Audio recorder not initialized"
  else
    modify (set_audioBuffer []);;
    modify (set_isRecording true);;
    modify (set_isPaused false).

Definition pauseRecording : M unit := modify (set_isPaused true).

Definition resumeRecording : M unit := modify (set_isPaused false).

(** *** [createWAVBlob] *)

Record Blob := { blob_bytes : list Z; blob_type : string }.

(** [writeString(offset, string)], from character [i] on. *)
Fixpoint writeString_from (view : DataView.view) (offset i : Z) (codes : list Z)
  : result DataView.view :=
  match codes with
  | [] => Ok view
  | c :: rest =>
      view' ← DataView.setUint8 view (offset + i) c;
      writeString_from view' offset (i + 1) rest
  end.

Definition writeString (view : DataView.view) (offset : Z) (s : string)
  : result DataView.view :=
  writeString_from view offset 0 (charCodes s).

(** [Math.max(-1, Math.min(1, buffer[i]))]. *)
Definition sample_of (x : Float32.float32) : Number.number :=
  Number.Math_max (Number.of_Z (-1)) (Number.Math_min (Number.of_Z 1) (Float32.to_number x)).

(** [sample < 0 ? sample * 0x8000 : sample * 0x7FFF]. *)
Definition pcmSample_of (x : Float32.float32) : Number.number :=
  let sample := sample_of x in
  if Number.lt sample (Number.of_Z 0)
  then Number.mul sample (Number.of_Z 32768)
  else Number.mul sample (Number.of_Z 32767).

(** The inner loop over one chunk; the state is the view and [offset]. *)
Fixpoint encode_chunk (buffer : Float32Array) (view : DataView.view) (offset : Z)
  : result (DataView.view * Z) :=
  match buffer with
  | [] => Ok (view, offset)
  | x :: rest =>
      view' ← DataView.setInt16 view offset (pcmSample_of x);
      encode_chunk rest view' (offset + 2)
  end.

(** The outer loop [for (const buffer of this.audioBuffer)]. *)
Fixpoint encode_chunks (buffers : list Float32Array) (view : DataView.view) (offset : Z)
  : result (DataView.view * Z) :=
  match buffers with
  | [] => Ok (view, offset)
  | buffer :: rest =>
      '(view', offset') ← encode_chunk buffer view offset;
      encode_chunks rest view' offset'
  end.

(** [this.audioBuffer.reduce((sum, buffer) => sum + buffer.length, 0)]. *)
Definition totalSamples_of (buffers : list Float32Array) : Z :=
  fold_left (fun sum buffer => sum + Z.of_nat (length buffer)) buffers 0.

Definition createWAVBlob (this : AudioRecorder) : result Blob :=
  let totalSamples := totalSamples_of (audioBuffer this) in
  let view := DataView.new_ArrayBuffer (44 + totalSamples * 2) in
  view ← writeString view 0 "RIFF";
  view ← DataView.setUint32 view 4 (36 + totalSamples * 2);
  view ← writeString view 8 "WAVE";
  view ← writeString view 12 "fmt ";
  view ← DataView.setUint32 view 16 16;
  view ← DataView.setUint16 view 20 1;
  view ← DataView.setUint16 view 22 (channelCount this);
  view ← DataView.setUint32 view 24 (sampleRate this);
  view ← DataView.setUint32 view 28 (sampleRate this * channelCount this * 2);
  view ← DataView.setUint16 view 32 (channelCount this * 2);
  view ← DataView.setUint16 view 34 16;
  view ← writeString view 36 "data";
  view ← DataView.setUint32 view 40 (totalSamples * 2);
  '(view, _) ← encode_chunks (audioBuffer this) view 44;
  Ok {| blob_bytes := view; blob_type := "audio/wav" |}.

(** *** [stopRecording], [getRecordingState], [cleanup] *)

Definition stopRecording : M Blob :=
  this ← get_this;
  if negb (isRecording this) then throw "No recording in progress"
  else
    modify (set_isRecording false);;
    modify (set_isPaused false);;
    this ← get_this;
    wavBlob ← lift (createWAVBlob this);
    modify (set_audioBuffer []);;
    mret wavBlob.

Definition getRecordingState : M (bool * bool) :=
  this ← get_this;
  mret (isRecording this, isPaused this).

Definition cleanup : M unit :=
  this ← get_this;
  match processorNode this with
  | Some p => call (processor_disconnect p);; modify (set_processorNode None)
  | None => mret tt
  end;;
  this ← get_this;
  match sourceNode this with
  | Some s => call (source_disconnect s);; modify (set_sourceNode None)
  | None => mret tt
  end;;
  this ← get_this;
  match audioContext this with
  | Some c => call (context_close c);; modify (set_audioContext None)
  | None => mret tt
  end;;
  this ← get_this;
  match mediaStream this with
  | Some stream =>
      for_of (getTracks stream) (fun track => call (track_stop track));;
      modify (set_mediaStream None)
  | None => mret tt
  end;;
  modify (set_audioBuffer []);;
  modify (set_isRecording false);;
  modify (set_isPaused false).

(** ** What the encoder is expected to write *)

(** The 16-bit value stored for one sample. *)
Definition int16_of (x : Float32.float32) : Z := Number.ToInt16 (pcmSample_of x).

(** The data section: two little-endian bytes per sample, in order. *)
Definition pcm_bytes (samples : Float32Array) : list Z :=
  flat_map (fun x => DataView.le_bytes 2 (int16_of x)) samples.

(** The 44 header bytes, field after field. *)
Definition wav_header (totalSamples channelCount sampleRate : Z) : list Z :=
  charCodes "RIFF"
  ++ DataView.le_bytes 4 (DataView.ToUint32 (36 + totalSamples * 2))
  ++ charCodes "WAVE"
  ++ charCodes "fmt "
  ++ DataView.le_bytes 4 (DataView.ToUint32 16)
  ++ DataView.le_bytes 2 (DataView.ToUint16 1)
  ++ DataView.le_bytes 2 (DataView.ToUint16 channelCount)
  ++ DataView.le_bytes 4 (DataView.ToUint32 sampleRate)
  ++ DataView.le_bytes 4 (DataView.ToUint32 (sampleRate * channelCount * 2))
  ++ DataView.le_bytes 2 (DataView.ToUint16 (channelCount * 2))
  ++ DataView.le_bytes 2 (DataView.ToUint16 16)
  ++ charCodes "data"
  ++ DataView.le_bytes 4 (DataView.ToUint32 (totalSamples * 2)).


(** ** Values of Numbers *)

(** The binary64 number [±m·2^e] in normal form, for a mantissa of at
    most 53 bits: the mantissa is shifted left to 53 bits. *)
Definition normalized (s : bool) (m : positive) (e : Z) : Number.number :=
  let shift := 53 - Z.pos (digits2_pos m) in
  S754_finite s (Z.to_pos (Z.pos m * 2 ^ shift)) (e - shift).

(** The order of [m1·2^e1] and [m2·2^e2], computed on integers. *)
Definition dyadic_compare (m1 : positive) (e1 : Z) (m2 : positive) (e2 : Z)
  : comparison :=
  Z.pos m1 * 2 ^ (e1 - Z.min e1 e2) ?= Z.pos m2 * 2 ^ (e2 - Z.min e1 e2).

(** Clamping to [-1, 1] by cases. *)
Definition clamp (y : Number.number) : Number.number :=
  if Number.lt y (Number.of_Z (-1)) then Number.of_Z (-1)
  else if Number.lt (Number.of_Z 1) y then Number.of_Z 1
  else y.

(** The factor a sample of sign [s] is scaled by: [0x8000] for a
    negative sample, [0x7FFF] otherwise. *)
Definition scale (s : bool) : positive := if s then 32768%positive else 32767%positive.

(** ** The session state machine *)

(** The states of a session as the object's fields tell them apart.
    [Idle] is the state of an initialized recorder that is not recording:
    freshly initialized, or stopped. *)
Inductive Phase : Type := Uninitialized | Idle | Recording | Paused.

(** The test of [startRecording]: both the context and the processor
    are held. *)
Definition initialized (this : AudioRecorder) : bool :=
  bool_decide (is_Some (audioContext this))
  && bool_decide (is_Some (processorNode this)).

Definition phase (this : AudioRecorder) : Phase :=
  if isRecording this then (if isPaused this then Paused else Recording)
  else if initialized this then Idle else Uninitialized.

(** What happens to a recorder between [startRecording] and
    [stopRecording]: the platform delivers a block to the callback, or
    the caller pauses or resumes. *)
Inductive Event : Type :=
  | Deliver (inputBuffer : AudioBuffer)
  | Pause
  | Resume.

Definition handle (e : Event) : M unit :=
  match e with
  | Deliver inputBuffer => onaudioprocess inputBuffer
  | Pause => pauseRecording
  | Resume => resumeRecording
  end.

Definition run (es : list Event) : M unit := for_of es handle.

(** The blocks of a trace that are delivered while the session is not
    paused, in delivery order; [paused] is the pause flag at the start. *)
Fixpoint delivered_unpaused (paused : bool) (es : list Event) : list AudioBuffer :=
  match es with
  | [] => []
  | Deliver b :: es' =>
      if paused then delivered_unpaused paused es'
      else b :: delivered_unpaused paused es'
  | Pause :: es' => delivered_unpaused true es'
  | Resume :: es' => delivered_unpaused false es'
  end.

(** The pause flag after a trace. *)
Fixpoint paused_after (paused : bool) (es : list Event) : bool :=
  match es with
  | [] => paused
  | Deliver _ :: es' => paused_after paused es'
  | Pause :: es' => paused_after true es'
  | Resume :: es' => paused_after false es'
  end.

(** A trace made of record/pause cycles: in each cycle the blocks
    [recorded] arrive, the caller pauses, the blocks [dropped] arrive and
    the caller resumes; the blocks [last] arrive after the last resume. *)
Definition cycle (c : list AudioBuffer * list AudioBuffer) : list Event :=
  map Deliver (fst c) ++ [Pause] ++ map Deliver (snd c) ++ [Resume].

Definition cycles (cs : list (list AudioBuffer * list AudioBuffer))
    (last : list AudioBuffer) : list Event :=
  flat_map cycle cs ++ map Deliver last.

(** The platform calls [cleanup] owes for the objects a recorder holds. *)
Definition release_calls (this : AudioRecorder) : list Call :=
  match processorNode this with Some p => [processor_disconnect p] | None => [] end
  ++ match sourceNode this with Some s => [source_disconnect s] | None => [] end
  ++ match audioContext this with Some c => [context_close c] | None => [] end
  ++ match mediaStream this with Some s => map track_stop (getTracks s) | None => [] end.

(** The constraints [initialize] passes to [getUserMedia]. *)
Definition requested_constraints (this : AudioRecorder) : MediaTrackConstraints :=
  {| constraint_sampleRate := sampleRate this;
     constraint_channelCount := channelCount this;
     echoCancellation := false;
     noiseSuppression := false;
     autoGainControl := false |}.

(** The sample rates of the tracks a recorder holds, as the device
    negotiated them. *)
Definition negotiated_sampleRates (this : AudioRecorder) : list Z :=
  match mediaStream this with
  | Some stream => map settings_sampleRate (getTracks stream)
  | None => []
  end.

(** *** Concrete inputs *)

(** A platform that grants every request; the device delivers one track
    at 48000 Hz whatever rate is asked for, and the context runs at the
    rate it is constructed with. *)
Definition granting_platform : Platform :=
  {| getUserMedia := fun c =>
       Ok {| getTracks := [ {| settings_sampleRate := 48000;
                               settings_channelCount := constraint_channelCount c |} ] |};
     new_AudioContext := fun rate => Ok {| context_sampleRate := rate |};
     createMediaStreamSource := fun _ stream => Ok {| source_mediaStream := stream |};
     createScriptProcessor := fun _ size nIn nOut =>
       Ok {| bufferSize := size; numberOfInputChannels := nIn;
             numberOfOutputChannels := nOut |} |}.

Definition default_options : AudioRecorderOptions :=
  {| options_sampleRate := None; options_channelCount := None;
     options_bitDepth := None |}.

(** The options [{ bitDepth: 24 }]. *)
Definition options_24bit : AudioRecorderOptions :=
  {| options_sampleRate := None; options_channelCount := None;
     options_bitDepth := Some 24 |}.

(** [new AudioRecorder()]. *)
Definition fresh_recorder : AudioRecorder := new_AudioRecorder default_options.

(** The binary32 values 0.5, -0.5, 1.0, -1.0, 1.5 and -1.5. *)
Definition f32_half : Float32.float32 := S754_finite false 8388608 (-24).
Definition f32_minus_half : Float32.float32 := S754_finite true 8388608 (-24).
Definition f32_one : Float32.float32 := S754_finite false 8388608 (-23).
Definition f32_minus_one : Float32.float32 := S754_finite true 8388608 (-23).
Definition f32_one_and_half : Float32.float32 := S754_finite false 12582912 (-23).
Definition f32_minus_one_and_half : Float32.float32 := S754_finite true 12582912 (-23).

(** A stereo block of two frames. *)
Definition stereo_block : AudioBuffer :=
  {| inputBuffer_length := 2;
     channels := [[f32_half; f32_minus_half]; [f32_one_and_half; f32_minus_one]] |}.

(** A recorder that has been initialized and started, and has received
    one block. *)
Definition recording_session : AudioRecorder :=
  this_after
    ((initialize granting_platform;; startRecording;; onaudioprocess stereo_block)
       fresh_recorder).

(** *** Sequences of calls *)

(** A call on a recorder: one of its public methods, or a delivery to
    the [onaudioprocess] callback. *)
Inductive Op : Type :=
  | op_initialize (P : Platform)
  | op_startRecording
  | op_pauseRecording
  | op_resumeRecording
  | op_stopRecording
  | op_getRecordingState
  | op_cleanup
  | op_onaudioprocess (inputBuffer : AudioBuffer).

(** The object after a call, whether the call returns or throws. *)
Definition perform (o : Op) (this : AudioRecorder) : AudioRecorder :=
  match o with
  | op_initialize P => this_after (initialize P this)
  | op_startRecording => this_after (startRecording this)
  | op_pauseRecording => this_after (pauseRecording this)
  | op_resumeRecording => this_after (resumeRecording this)
  | op_stopRecording => this_after (stopRecording this)
  | op_getRecordingState => this_after (getRecordingState this)
  | op_cleanup => this_after (cleanup this)
  | op_onaudioprocess inputBuffer => this_after (onaudioprocess inputBuffer this)
  end.

Definition perform_all (ops : list Op) (this : AudioRecorder) : AudioRecorder :=
  fold_left (fun this o => perform o this) ops this.

(** What every call keeps true of a recorder. *)
Definition consistent (this : AudioRecorder) : Prop :=
  (isRecording this = true -> initialized this = true)
  /\ (isRecording this = false -> audioBuffer this = []).

(** The number of samples a block contributes to the capture buffer. *)
Definition block_samples (b : AudioBuffer) : nat :=
  inputBuffer_length b * numberOfChannels b.

(** The sum of a list of sizes. *)
Definition sum_list (l : list nat) : nat := fold_right Nat.add 0%nat l.

(** ** The recorder component

    [src/components/audio-recorder-component.tsx]: the React component
    that owns an [AudioRecorder] and mirrors its state for display. *)

Module Component.

(** The methods of the recorder, under names the handlers of the same
    name do not hide. *)
Local Abbreviation recorder_startRecording := startRecording (only parsing).
Local Abbreviation recorder_pauseRecording := pauseRecording (only parsing).
Local Abbreviation recorder_resumeRecording := resumeRecording (only parsing).
Local Abbreviation recorder_stopRecording := stopRecording (only parsing).
Local Abbreviation recorder_isRecording := isRecording (only parsing).
Local Abbreviation recorder_isPaused := isPaused (only parsing).

(** [n.toString()] for a non-negative integer. *)
Definition toString (n : nat) : string := NilEmpty.string_of_uint (Nat.to_uint n).

(** The first [n] characters of [padString] repeated, continuing from
    [cur]. *)
Fixpoint cycle_take (n : nat) (padString cur : string) : string :=
  match n with
  | O => EmptyString
  | S n' =>
      match cur with
      | String c rest => String c (cycle_take n' padString rest)
      | EmptyString =>
          match padString with
          | String c rest => String c (cycle_take n' padString rest)
          | EmptyString => EmptyString
          end
      end
  end.

(** [s.padStart(targetLength, padString)]. *)
Definition padStart (targetLength : nat) (padString : string) (s : string) : string :=
  if (targetLength <=? String.length s)%nat then s
  else String.append (cycle_take (targetLength - String.length s) padString padString) s.

(** [formatTime(seconds)]: minutes and seconds, each padded to two
    digits. *)
Definition formatTime (seconds : nat) : string :=
  let mins := (seconds / 60)%nat in
  let secs := (seconds mod 60)%nat in
  String.append (padStart 2 "0" (toString mins))
    (String.append ":" (padStart 2 "0" (toString secs))).

(** Reading a string of decimal digits. *)
Definition parse_decimal (s : string) : option nat :=
  option_map Nat.of_uint (NilEmpty.uint_of_string s).

(** [timestamp.replace(/[:.]/g, "-")]. *)
Fixpoint replace_colon_dot (s : string) : string :=
  match s with
  | EmptyString => EmptyString
  | String c rest =>
      String (if (Ascii.eqb c ":" || Ascii.eqb c ".")%bool then "-"%char else c)
        (replace_colon_dot rest)
  end.

(** The name given to a recording stopped at the instant whose ISO
    string is [iso]. *)
Definition filename_at (iso : string) : string :=
  String.append "recording_" (String.append (replace_colon_dot iso) ".wav").

(** The state of the component: its [useState] cells and the
    [audioRecorderRef] reference. *)
Record State := {
  isRecording : bool;
  isPaused : bool;
  recordingTime : nat;
  isInitialized : bool;
  error : option string;
  recordedAudio : option (Blob * string);
  audioRecorderRef : option AudioRecorder
}.

Definition initial : State :=
  {| isRecording := false; isPaused := false; recordingTime := 0;
     isInitialized := false; error := None; recordedAudio := None;
     audioRecorderRef := None |}.

(** [`${err}`] for a thrown [Error]. *)
Definition error_text (message : string) : string := String.append "Error: " message.

(** The mount effect: construct a recorder, initialize it, and keep it
    when that succeeds. *)
Definition mount (P : Platform) (st : State) : State :=
  let recorder :=
    new_AudioRecorder {| options_sampleRate := Some 44100;
                         options_channelCount := Some 2;
                         options_bitDepth := Some 16 |} in
  match initialize P recorder with
  | Outcome (Ok _) recorder' _ =>
      {| isRecording := isRecording st; isPaused := isPaused st;
         recordingTime := recordingTime st; isInitialized := true;
         error := None; recordedAudio := recordedAudio st;
         audioRecorderRef := Some recorder' |}
  | Outcome (Throw message) _ _ =>
      {| isRecording := isRecording st; isPaused := isPaused st;
         recordingTime := recordingTime st; isInitialized := isInitialized st;
         error := Some (String.append "Failed to initialize audio recorder: "
                          (error_text message));
         recordedAudio := recordedAudio st;
         audioRecorderRef := audioRecorderRef st |}
  end.

(** The click handler [startRecording]. *)
Definition startRecording (st : State) : State :=
  match audioRecorderRef st with
  | Some recorder =>
      if negb (isInitialized st) then
        {| isRecording := isRecording st; isPaused := isPaused st;
           recordingTime := recordingTime st; isInitialized := isInitialized st;
           error := Some "Audio recorder not initialized"%string;
           recordedAudio := recordedAudio st;
           audioRecorderRef := audioRecorderRef st |}
      else
        match recorder_startRecording recorder with
        | Outcome (Ok _) recorder' _ =>
            {| isRecording := true; isPaused := false; recordingTime := 0;
               isInitialized := isInitialized st; error := None;
               recordedAudio := recordedAudio st;
               audioRecorderRef := Some recorder' |}
        | Outcome (Throw message) recorder' _ =>
            {| isRecording := isRecording st; isPaused := isPaused st;
               recordingTime := recordingTime st;
               isInitialized := isInitialized st;
               error := Some (String.append "Failed to start recording: "
                                (error_text message));
               recordedAudio := recordedAudio st;
               audioRecorderRef := Some recorder' |}
        end
  | None =>
      {| isRecording := isRecording st; isPaused := isPaused st;
         recordingTime := recordingTime st; isInitialized := isInitialized st;
         error := Some "Audio recorder not initialized"%string;
         recordedAudio := recordedAudio st;
         audioRecorderRef := audioRecorderRef st |}
  end.

(** The click handler [pauseRecording]; [seen_isPaused] is the value of
    [isPaused] in the render whose handler runs. *)
Definition pauseRecording (seen_isPaused : bool) (st : State) : State :=
  match audioRecorderRef st with
  | None => st
  | Some recorder =>
      if seen_isPaused then
        {| isRecording := isRecording st; isPaused := false;
           recordingTime := recordingTime st; isInitialized := isInitialized st;
           error := error st; recordedAudio := recordedAudio st;
           audioRecorderRef := Some (this_after (recorder_resumeRecording recorder)) |}
      else
        {| isRecording := isRecording st; isPaused := true;
           recordingTime := recordingTime st; isInitialized := isInitialized st;
           error := error st; recordedAudio := recordedAudio st;
           audioRecorderRef := Some (this_after (recorder_pauseRecording recorder)) |}
  end.

(** The click handler [stopRecording]; [iso] is
    [new Date().toISOString()]. *)
Definition stopRecording (iso : string) (st : State) : State :=
  match audioRecorderRef st with
  | None => st
  | Some recorder =>
      match recorder_stopRecording recorder with
      | Outcome (Ok audioBlob) recorder' _ =>
          {| isRecording := false; isPaused := false;
             recordingTime := recordingTime st;
             isInitialized := isInitialized st; error := error st;
             recordedAudio := Some (audioBlob, filename_at iso);
             audioRecorderRef := Some recorder' |}
      | Outcome (Throw message) recorder' _ =>
          {| isRecording := isRecording st; isPaused := isPaused st;
             recordingTime := recordingTime st;
             isInitialized := isInitialized st;
             error := Some (String.append "Failed to stop recording: "
                              (error_text message));
             recordedAudio := recordedAudio st;
             audioRecorderRef := Some recorder' |}
      end
  end.

(** [handleUploadAndTranscribe]: what is passed to
    [onRecordingComplete], if anything, and the state after. *)
Definition handleUploadAndTranscribe (st : State) : option (Blob * string) * State :=
  match recordedAudio st with
  | Some audio =>
      (Some audio,
       {| isRecording := isRecording st; isPaused := isPaused st;
          recordingTime := 0; isInitialized := isInitialized st;
          error := error st; recordedAudio := None;
          audioRecorderRef := audioRecorderRef st |})
  | None => (None, st)
  end.

Definition handleDiscardRecording (st : State) : State :=
  {| isRecording := isRecording st; isPaused := isPaused st;
     recordingTime := 0; isInitialized := isInitialized st;
     error := error st; recordedAudio := None;
     audioRecorderRef := audioRecorderRef st |}.

(** One tick of the interval timer, which runs while recording and not
    paused. *)
Definition tick (st : State) : State :=
  if (isRecording st && negb (isPaused st))%bool then
    {| isRecording := isRecording st; isPaused := isPaused st;
       recordingTime := S (recordingTime st); isInitialized := isInitialized st;
       error := error st; recordedAudio := recordedAudio st;
       audioRecorderRef := audioRecorderRef st |}
  else st.

(** A block delivered by the platform to the recorder the component
    holds. *)
Definition deliver (inputBuffer : AudioBuffer) (st : State) : State :=
  match audioRecorderRef st with
  | None => st
  | Some recorder =>
      {| isRecording := isRecording st; isPaused := isPaused st;
         recordingTime := recordingTime st; isInitialized := isInitialized st;
         error := error st; recordedAudio := recordedAudio st;
         audioRecorderRef := Some (this_after (onaudioprocess inputBuffer recorder)) |}
  end.

(** [getRecordingStatus()]. *)
Definition getRecordingStatus (st : State) : string :=
  match recordedAudio st with
  | Some _ => "Recording completed - Ready to upload"
  | None =>
      if negb (isRecording st) then "Ready to record"
      else if isPaused st then "Paused"
      else "Recording..."
  end.

(** What can happen to a mounted component. *)
Inductive Action : Type :=
  | click_start
  | click_pause (seen_isPaused : bool)
  | click_stop (iso : string)
  | click_upload
  | click_discard
  | timer_tick
  | audio_block (inputBuffer : AudioBuffer).

Definition act (a : Action) (st : State) : State :=
  match a with
  | click_start => startRecording st
  | click_pause seen => pauseRecording seen st
  | click_stop iso => stopRecording iso st
  | click_upload => snd (handleUploadAndTranscribe st)
  | click_discard => handleDiscardRecording st
  | timer_tick => tick st
  | audio_block b => deliver b st
  end.

Definition act_all (actions : list Action) (st : State) : State :=
  fold_left (fun st a => act a st) actions st.

(** The component agrees with the recorder it holds: with a recorder it
    is initialized and shows the recorder's two flags, without one it
    shows neither flag. *)
Definition mirrors (st : State) : Prop :=
  match audioRecorderRef st with
  | Some recorder =>
      isInitialized st = true
      /\ initialized recorder = true
      /\ isRecording st = recorder_isRecording recorder
      /\ isPaused st = recorder_isPaused recorder
  | None =>
      isInitialized st = false /\ isRecording st = false /\ isPaused st = false
  end.

End Component.
(** ** Bytes and views *)

Section ViewLemmas.

Import DataView.

Lemma le_bytes_length n z : length (le_bytes n z) = n.
Proof. revert z; induction n as [|n IH]; intros z; simpl; [done | by rewrite IH]. Qed.

Lemma le_value_le_bytes n z :
  0 <= z < 256 ^ Z.of_nat n -> le_value (le_bytes n z) = z.
Proof.
  revert z; induction n as [|n IH]; intros z Hz.
  - simpl in *. lia.
  - cbn [le_bytes le_value]. rewrite IH.
    + pose proof (Z.div_mod z 256). lia.
    + rewrite Nat2Z.inj_succ, Z.pow_succ_r in Hz by lia.
      split; [apply Z.div_pos; lia | apply Z.div_lt_upper_bound; lia].
Qed.

(** A write that fits in a prefix of the view leaves the rest alone. *)
Lemma SetViewValue_prefix (a b : view) byteOffset rawBytes :
  (0 <=? byteOffset) && (byteOffset + Z.of_nat (length rawBytes) <=? Z.of_nat (length a)) = true ->
  SetViewValue (a ++ b) byteOffset rawBytes
  = Ok ((take (Z.to_nat byteOffset) a ++ rawBytes
           ++ drop (Z.to_nat byteOffset + length rawBytes)%nat a) ++ b).
Proof.
  intros H. apply andb_true_iff in H as [H0 H1].
  apply Z.leb_le in H0, H1.
  unfold SetViewValue, byteLength.
  rewrite length_app.
  replace ((0 <=? byteOffset) && _) with true
    by (symmetry; apply andb_true_iff; split; apply Z.leb_le; lia).
  rewrite take_app_le by lia.
  rewrite drop_app_le by lia.
  by rewrite <- !app_assoc.
Qed.

(** A write over a segment of the right length replaces that segment. *)
Lemma SetViewValue_replace (pre old post : view) rawBytes :
  length old = length rawBytes ->
  SetViewValue (pre ++ old ++ post) (Z.of_nat (length pre)) rawBytes
  = Ok (pre ++ rawBytes ++ post).
Proof.
  intros Hlen. unfold SetViewValue, byteLength.
  rewrite !length_app.
  replace ((0 <=? _) && _) with true
    by (symmetry; apply andb_true_iff; split; apply Z.leb_le; lia).
  rewrite Nat2Z.id.
  rewrite take_app_length.
  rewrite <- Hlen.
  by rewrite drop_app_add, drop_app_length.
Qed.

End ViewLemmas.

(** ** The encoder loops and the header *)

Section EncoderLemmas.
Import DataView.

Lemma totalSamples_of_from (buffers : list Float32Array) (acc : Z) :
  fold_left (fun sum buffer => sum + Z.of_nat (length buffer)) buffers acc
  = acc + Z.of_nat (length (concat buffers)).
Proof.
  revert acc; induction buffers as [|b bs IH]; intros acc; simpl.
  - lia.
  - rewrite IH, length_app. lia.
Qed.

Lemma totalSamples_of_concat (buffers : list Float32Array) :
  totalSamples_of buffers = Z.of_nat (length (concat buffers)).
Proof. unfold totalSamples_of. by rewrite totalSamples_of_from. Qed.

Lemma pcm_bytes_length samples : length (pcm_bytes samples) = (2 * length samples)%nat.
Proof. induction samples as [|x xs IH]; simpl; [done | lia]. Qed.

Lemma pcm_bytes_app xs ys : pcm_bytes (xs ++ ys) = pcm_bytes xs ++ pcm_bytes ys.
Proof. apply flat_map_app. Qed.

Lemma encode_chunk_spec (buffer : Float32Array) :
  forall (pre post : view),
    encode_chunk buffer (pre ++ replicate (2 * length buffer) 0 ++ post)
                 (Z.of_nat (length pre))
    = Ok (pre ++ pcm_bytes buffer ++ post,
          Z.of_nat (length pre) + 2 * Z.of_nat (length buffer)).
Proof.
  induction buffer as [|x xs IH]; intros pre post.
  - simpl. f_equal. f_equal. lia.
  - cbn [encode_chunk]. unfold setInt16.
    replace (2 * length (x :: xs))%nat with (2 + 2 * length xs)%nat by (simpl; lia).
    rewrite replicate_add, <- app_assoc.
    rewrite SetViewValue_replace by (by rewrite le_bytes_length).
    cbn [mbind result_bind bind_result].
    specialize (IH (pre ++ le_bytes 2 (Number.ToInt16 (pcmSample_of x))) post).
    rewrite length_app, le_bytes_length, <- app_assoc in IH.
    replace (Z.of_nat (length pre) + 2) with (Z.of_nat (length pre + 2)) by lia.
    rewrite IH. f_equal. f_equal.
    + cbn [pcm_bytes flat_map]. by rewrite <- !app_assoc.
    + simpl length. lia.
Qed.

Lemma encode_chunks_spec (buffers : list Float32Array) :
  forall (pre post : view),
    encode_chunks buffers (pre ++ replicate (2 * length (concat buffers)) 0 ++ post)
                  (Z.of_nat (length pre))
    = Ok (pre ++ pcm_bytes (concat buffers) ++ post,
          Z.of_nat (length pre) + 2 * Z.of_nat (length (concat buffers))).
Proof.
  induction buffers as [|b bs IH]; intros pre post.
  - simpl. f_equal. f_equal. lia.
  - cbn [encode_chunks concat].
    rewrite length_app.
    replace (2 * (length b + length (concat bs)))%nat
      with (2 * length b + 2 * length (concat bs))%nat by lia.
    rewrite replicate_add, <- app_assoc, encode_chunk_spec.
    cbn [mbind result_bind bind_result].
    specialize (IH (pre ++ pcm_bytes b) post).
    rewrite length_app, pcm_bytes_length, <- app_assoc in IH.
    replace (Z.of_nat (length pre) + 2 * Z.of_nat (length b))
      with (Z.of_nat (length pre + 2 * length b)) by lia.
    rewrite IH. f_equal. f_equal.
    + by rewrite pcm_bytes_app, <- !app_assoc.
    + lia.
Qed.

(** One header write: the bytes land in the explicit prefix of the
    view, which is recomputed. *)
Ltac view_step :=
  lazymatch goal with
  | |- context [SetViewValue (?a ++ ?b) ?off ?raw] =>
      let a' := eval vm_compute in
        (take (Z.to_nat off) a ++ raw ++ drop (Z.to_nat off + length raw)%nat a) in
      rewrite (SetViewValue_prefix a b off raw) by (vm_compute; reflexivity);
      change (take (Z.to_nat off) a ++ raw ++ drop (Z.to_nat off + length raw)%nat a)
        with a';
      cbn [mbind result_bind bind_result]
  end.

(** Name the bytes of every multi-byte field, so that only the shape of
    the lists is computed with. *)
Ltac name_bytes :=
  repeat match goal with
  | |- context [le_bytes 1 (ToUint8 ?c)] =>
      let v := eval vm_compute in (le_bytes 1 (ToUint8 c)) in
      change (le_bytes 1 (ToUint8 c)) with v
  | |- context [charCodes ?s] =>
      let v := eval vm_compute in (charCodes s) in
      change (charCodes s) with v
  | |- context [le_bytes ?k ?z] =>
      let H := fresh "H" in
      pose proof (le_bytes_length k z) as H;
      destruct (le_bytes k z) as [|? [|? [|? [|? [|? ?]]]]];
      try discriminate H; clear H
  end.

(** The whole output of [createWAVBlob]: it never throws, and the view
    it returns is the header followed by the data section. *)
Lemma createWAVBlob_bytes (this : AudioRecorder) :
  createWAVBlob this
  = Ok {| blob_bytes :=
            wav_header (totalSamples_of (audioBuffer this)) (channelCount this)
                       (sampleRate this)
            ++ pcm_bytes (concat (audioBuffer this));
          blob_type := "audio/wav" |}.
Proof.
  unfold createWAVBlob, wav_header.
  rewrite totalSamples_of_concat.
  set (n := length (concat (audioBuffer this))).
  unfold new_ArrayBuffer.
  replace (Z.to_nat (44 + Z.of_nat n * 2)) with (44 + 2 * n)%nat by lia.
  rewrite replicate_add.
  unfold writeString.
  cbn [charCodes writeString_from].
  unfold setUint32, setUint16, setUint8.
  name_bytes.
  do 25 view_step.
  match goal with
  | |- context [encode_chunks _ (?a ++ ?b) 44] =>
      change 44 with (Z.of_nat (length a));
      rewrite <- (app_nil_r b)
  end.
  subst n. rewrite encode_chunks_spec.
  cbn [mbind result_bind bind_result].
  rewrite app_nil_r.
  reflexivity.
Qed.

Lemma wav_header_length t c r : length (wav_header t c r) = 44%nat.
Proof. unfold wav_header. rewrite !length_app, !le_bytes_length. reflexivity. Qed.

(** Where each field of the header sits in the output. *)
Lemma wav_header_fields t c r (data : list Z) :
  let bytes := wav_header t c r ++ data in
  slice bytes 0 4 = charCodes "RIFF"
  /\ slice bytes 4 4 = le_bytes 4 (ToUint32 (36 + t * 2))
  /\ slice bytes 8 4 = charCodes "WAVE"
  /\ slice bytes 12 4 = charCodes "fmt "
  /\ slice bytes 16 4 = le_bytes 4 (ToUint32 16)
  /\ slice bytes 20 2 = le_bytes 2 (ToUint16 1)
  /\ slice bytes 22 2 = le_bytes 2 (ToUint16 c)
  /\ slice bytes 24 4 = le_bytes 4 (ToUint32 r)
  /\ slice bytes 28 4 = le_bytes 4 (ToUint32 (r * c * 2))
  /\ slice bytes 32 2 = le_bytes 2 (ToUint16 (c * 2))
  /\ slice bytes 34 2 = le_bytes 2 (ToUint16 16)
  /\ slice bytes 36 4 = charCodes "data"
  /\ slice bytes 40 4 = le_bytes 4 (ToUint32 (t * 2))
  /\ drop 44 bytes = data.
Proof.
  unfold wav_header. name_bytes. cbv zeta. repeat split; reflexivity.
Qed.

Lemma getUint32_le_bytes (bytes : list Z) off z :
  slice bytes off 4 = le_bytes 4 (ToUint32 z) ->
  0 <= z < 2 ^ 32 ->
  getUint32 bytes off = z.
Proof.
  intros H Hz. unfold getUint32. rewrite H. unfold ToUint32.
  rewrite Z.mod_small by done. apply le_value_le_bytes.
  by change (256 ^ Z.of_nat 4) with (2 ^ 32).
Qed.

Lemma getUint16_le_bytes (bytes : list Z) off z :
  slice bytes off 2 = le_bytes 2 (ToUint16 z) ->
  0 <= z < 2 ^ 16 ->
  getUint16 bytes off = z.
Proof.
  intros H Hz. unfold getUint16. rewrite H. unfold ToUint16.
  rewrite Z.mod_small by done. apply le_value_le_bytes.
  by change (256 ^ Z.of_nat 2) with (2 ^ 16).
Qed.

(** The stored 16-bit value is a signed 16-bit integer, and a signed
    read of its two bytes gives it back. *)
Lemma ToInt16_range x : - 2 ^ 15 <= Number.ToInt16 x < 2 ^ 15.
Proof.
  unfold Number.ToInt16. destruct x; try lia.
  cbv zeta.
  pose proof (Z.mod_pos_bound (Number.truncate (S754_finite s m e)) (2 ^ 16)).
  destruct (Z.leb_spec (2 ^ 15) (Number.truncate (S754_finite s m e) mod 2 ^ 16)); lia.
Qed.

Lemma le_value_int16 z :
  - 2 ^ 15 <= z < 2 ^ 15 ->
  le_value (le_bytes 2 z) = z mod 2 ^ 16.
Proof.
  intros Hz. cbn [le_bytes le_value].
  pose proof (Z.div_mod z 256).
  pose proof (Z.div_mod (z / 256) 256).
  pose proof (Z.mod_pos_bound z 256).
  pose proof (Z.mod_pos_bound (z / 256) 256).
  assert (- 128 <= z / 256 < 128).
  { split; [apply Z.div_le_lower_bound | apply Z.div_lt_upper_bound]; lia. }
  apply (Z.mod_unique _ _ (z / 256 / 256)); change (2 ^ 16) with 65536; lia.
Qed.

Lemma signed16_mod z :
  - 2 ^ 15 <= z < 2 ^ 15 ->
  (if 2 ^ 15 <=? z mod 2 ^ 16 then z mod 2 ^ 16 - 2 ^ 16 else z mod 2 ^ 16) = z.
Proof.
  intros Hz.
  assert (z mod 2 ^ 16 = if z <? 0 then z + 2 ^ 16 else z) as ->.
  { destruct (Z.ltb_spec z 0); symmetry;
      [apply (Z.mod_unique _ _ (-1)) | apply (Z.mod_unique _ _ 0)]; lia. }
  destruct (Z.ltb_spec z 0);
    match goal with |- context [?a <=? ?b] => destruct (Z.leb_spec a b) end; lia.
Qed.

Lemma getInt16_pcm_bytes (pre post : list Z) (samples : Float32Array) i x :
  samples !! i = Some x ->
  getInt16 (pre ++ pcm_bytes samples ++ post) (length pre + 2 * i) = int16_of x.
Proof.
  revert pre i. induction samples as [|y ys IH]; intros pre i Hi; [done|].
  destruct i as [|i].
  - injection Hi as ->.
    unfold getInt16, getUint16, slice.
    rewrite Nat.mul_0_r, Nat.add_0_r, drop_app_length.
    cbn [pcm_bytes flat_map]. rewrite <- app_assoc.
    rewrite (take_app_length' _ _ 2) by (by rewrite le_bytes_length).
    rewrite le_value_int16 by apply ToInt16_range.
    apply signed16_mod, ToInt16_range.
  - cbn [pcm_bytes flat_map]. fold (pcm_bytes ys).
    specialize (IH (pre ++ le_bytes 2 (int16_of y)) i Hi).
    rewrite length_app, le_bytes_length, <- !app_assoc in IH.
    rewrite <- app_assoc.
    replace (length pre + 2 * S i)%nat with (length pre + 2 + 2 * i)%nat by lia.
    done.
Qed.
End EncoderLemmas.

(** ** The capture session *)

Section Session.

(** Running two steps in sequence, when the first returns. *)
Lemma M_bind_ok {A B} (m : M A) (k : A -> M B) this a this1 c1 :
  m this = Outcome (Ok a) this1 c1 ->
  (m ≫= k) this
  = Outcome (returned (k a this1)) (this_after (k a this1)) (c1 ++ calls (k a this1)).
Proof. intros H. unfold mbind, M_bind. rewrite H. by destruct (k a this1). Qed.

Lemma M_bind_throw {A B} (m : M A) (k : A -> M B) this e this1 c1 :
  m this = Outcome (Throw e) this1 c1 ->
  (m ≫= k) this = Outcome (Throw e) this1 c1.
Proof. intros H. unfold mbind, M_bind. by rewrite H. Qed.

Lemma outcome_eta {A} (o : outcome A) :
  o = Outcome (returned o) (this_after o) (calls o).
Proof. by destruct o. Qed.

(** *** The callback *)

Lemma phase_Recording this :
  phase this = Recording <-> isRecording this = true /\ isPaused this = false.
Proof.
  unfold phase. destruct (isRecording this), (isPaused this), (initialized this);
    split; (done || by intros []).
Qed.

Lemma phase_Paused this :
  phase this = Paused <-> isRecording this = true /\ isPaused this = true.
Proof.
  unfold phase. destruct (isRecording this), (isPaused this), (initialized this);
    split; (done || by intros []).
Qed.

Lemma phase_not_recording this :
  phase this = Idle \/ phase this = Uninitialized <-> isRecording this = false.
Proof.
  unfold phase. destruct (isRecording this), (isPaused this), (initialized this);
    split; intros; try done; try (by left); try (by right); by destruct_or!.
Qed.

Lemma onaudioprocess_eq this inputBuffer :
  onaudioprocess inputBuffer this
  = if isRecording this && negb (isPaused this)
    then Outcome (Ok tt)
           (set_audioBuffer (audioBuffer this ++ [interleave inputBuffer]) this) []
    else Outcome (Ok tt) this [].
Proof.
  unfold onaudioprocess, mbind, M_bind, get_this, when.
  by destruct (isRecording this), (isPaused this).
Qed.

Lemma onaudioprocess_recording this inputBuffer :
  phase this = Recording ->
  onaudioprocess inputBuffer this
  = Outcome (Ok tt) (set_audioBuffer (audioBuffer this ++ [interleave inputBuffer]) this) [].
Proof.
  intros [H1 H2]%phase_Recording. by rewrite onaudioprocess_eq, H1, H2.
Qed.

Lemma onaudioprocess_not_recording this inputBuffer :
  phase this <> Recording ->
  onaudioprocess inputBuffer this = Outcome (Ok tt) this [].
Proof.
  intros H. rewrite onaudioprocess_eq.
  destruct (isRecording this) eqn:H1, (isPaused this) eqn:H2; try done.
  destruct H. by apply phase_Recording.
Qed.

(** *** Traces of deliveries, pauses and resumes *)

Lemma run_cons e es this :
  run (e :: es) this
  = Outcome (returned (run es (this_after (handle e this))))
            (this_after (run es (this_after (handle e this))))
            (calls (handle e this) ++ calls (run es (this_after (handle e this)))).
Proof.
  unfold run at 1. cbn [for_of].
  assert (exists c, handle e this = Outcome (Ok tt) (this_after (handle e this)) c)
    as [c Hc].
  { destruct e; cbn [handle]; [|by eexists..].
    rewrite onaudioprocess_eq.
    destruct (isRecording this && negb (isPaused this)); by eexists. }
  rewrite (M_bind_ok _ _ _ _ _ _ Hc).
  by rewrite Hc.
Qed.

(** While a recording is in progress, a trace appends exactly the
    blocks delivered while not paused, in order, and touches nothing
    else but the pause flag. *)
Lemma run_recording es :
  forall this,
    isRecording this = true ->
    run es this
    = Outcome (Ok tt)
        (set_isPaused (paused_after (isPaused this) es)
           (set_audioBuffer
              (audioBuffer this
                 ++ map interleave (delivered_unpaused (isPaused this) es))
              this))
        [].
Proof.
  induction es as [|e es IH]; intros this Hrec.
  - destruct this; simpl in *. by rewrite app_nil_r.
  - rewrite run_cons. destruct e as [b| |]; cbn [handle].
    + rewrite onaudioprocess_eq, Hrec.
      destruct (isPaused this) eqn:Hp; cbn [andb negb this_after calls].
      * rewrite IH by done. by rewrite Hp.
      * rewrite IH by (by destruct this).
        destruct this; simpl in *. subst.
        by rewrite <- app_assoc.
    + unfold pauseRecording, modify. cbn [this_after calls].
      rewrite IH by (by destruct this). by destruct this.
    + unfold resumeRecording, modify. cbn [this_after calls].
      rewrite IH by (by destruct this). by destruct this.
Qed.

Lemma delivered_unpaused_app paused es1 es2 :
  delivered_unpaused paused (es1 ++ es2)
  = delivered_unpaused paused es1
      ++ delivered_unpaused (paused_after paused es1) es2.
Proof.
  revert paused; induction es1 as [|[b| |] es1 IH]; intros paused; simpl; try done.
  destruct paused; simpl; by rewrite IH.
Qed.

Lemma paused_after_app paused es1 es2 :
  paused_after paused (es1 ++ es2) = paused_after (paused_after paused es1) es2.
Proof. revert paused; induction es1 as [|[b| |] es1 IH]; intros paused; simpl; done. Qed.

Lemma delivered_unpaused_delivers paused bs :
  delivered_unpaused paused (map Deliver bs) = if paused then [] else bs.
Proof.
  induction bs as [|b bs IH]; simpl.
  - by destruct paused.
  - rewrite IH. by destruct paused.
Qed.

Lemma paused_after_delivers paused bs : paused_after paused (map Deliver bs) = paused.
Proof. induction bs as [|b bs IH]; simpl; done. Qed.

Lemma cycle_delivered paused c :
  delivered_unpaused paused (cycle c) = (if paused then [] else fst c)
  /\ paused_after paused (cycle c) = false.
Proof.
  unfold cycle.
  rewrite !delivered_unpaused_app, !paused_after_app, !paused_after_delivers,
    !delivered_unpaused_delivers.
  simpl. by rewrite !app_nil_r.
Qed.

Lemma flat_map_cycle_delivered cs :
  delivered_unpaused false (flat_map cycle cs) = flat_map fst cs
  /\ paused_after false (flat_map cycle cs) = false.
Proof.
  induction cs as [|c cs [IH1 IH2]]; simpl; [done|].
  destruct (cycle_delivered false c) as [H1 H2].
  rewrite delivered_unpaused_app, paused_after_app, H1, H2. by rewrite IH1, IH2.
Qed.

(** In a trace of cycles what is kept is what arrived outside the
    pauses. *)
Lemma cycles_delivered cs last :
  delivered_unpaused false (cycles cs last) = flat_map fst cs ++ last.
Proof.
  unfold cycles. destruct (flat_map_cycle_delivered cs) as [H1 H2].
  by rewrite delivered_unpaused_app, H1, H2, delivered_unpaused_delivers.
Qed.

(** *** The methods, as equations *)

Lemma startRecording_eq this :
  startRecording this
  = if initialized this
    then Outcome (Ok tt)
           (set_isPaused false (set_isRecording true (set_audioBuffer [] this))) []
    else Outcome (Throw "Audio recorder not initialized") this [].
Proof.
  unfold startRecording, initialized, mbind, M_bind, get_this, modify, throw.
  cbn [returned this_after calls].
  by destruct (bool_decide (is_Some (audioContext this))),
    (bool_decide (is_Some (processorNode this))).
Qed.

Lemma stopRecording_eq this :
  stopRecording this
  = if isRecording this
    then Outcome
           (Ok {| blob_bytes :=
                    wav_header (totalSamples_of (audioBuffer this))
                      (channelCount this) (sampleRate this)
                    ++ pcm_bytes (concat (audioBuffer this));
                  blob_type := "audio/wav" |})
           (set_audioBuffer [] (set_isPaused false (set_isRecording false this))) []
    else Outcome (Throw "No recording in progress") this [].
Proof.
  unfold stopRecording, mbind, M_bind, get_this, modify, throw, lift.
  cbn [returned this_after calls].
  destruct (isRecording this); cbn [negb]; [|done].
  rewrite createWAVBlob_bytes. by destruct this.
Qed.

Lemma for_of_call {A} (xs : list A) (f : A -> Call) this :
  for_of xs (fun x this => Outcome (Ok tt) this [f x]) this
  = Outcome (Ok tt) this (map f xs).
Proof.
  induction xs as [|x xs IH]; [done|].
  cbn [for_of]. unfold mbind, M_bind.
  by rewrite IH.
Qed.

Lemma cleanup_eq this :
  cleanup this
  = Outcome (Ok tt)
      {| audioContext := None; mediaStream := None; sourceNode := None;
         processorNode := None; audioBuffer := []; isRecording := false;
         isPaused := false; sampleRate := sampleRate this;
         channelCount := channelCount this; bitDepth := bitDepth this |}
      (release_calls this).
Proof.
  unfold cleanup, release_calls.
  destruct this as [c m s p b r pa sr cc bd]; cbn [processorNode sourceNode
    audioContext mediaStream sampleRate channelCount bitDepth].
  unfold mbind at 1, M_bind at 1, get_this at 1.
  destruct p as [p|], s as [s|], c as [c|], m as [m|];
    unfold mbind, M_bind, get_this, modify, call, mret, M_ret;
    cbn -[for_of]; rewrite ?for_of_call; cbn; by rewrite ?app_nil_r.
Qed.

Lemma initialize_granted P this stream context source processor :
  getUserMedia P (requested_constraints this) = Ok stream ->
  new_AudioContext P (sampleRate this) = Ok context ->
  createMediaStreamSource P context stream = Ok source ->
  createScriptProcessor P context 4096 (channelCount this) (channelCount this)
    = Ok processor ->
  initialize P this
  = Outcome (Ok tt)
      (set_processorNode (Some processor)
         (set_sourceNode (Some source)
            (set_audioContext (Some context)
               (set_mediaStream (Some stream) this))))
      [source_connect source processor;
       processor_connect_destination processor context].
Proof.
  unfold requested_constraints. intros H1 H2 H3 H4.
  unfold initialize, try_catch, mbind, M_bind, get_this, modify, call, lift.
  cbn [returned this_after calls].
  rewrite H1. cbn. rewrite H2. cbn. rewrite H3. cbn. rewrite H4. by cbn.
Qed.

(** Whatever the platform answers, [initialize] writes only the four
    object fields, and an error it throws is the wrapped error of a
    platform call. *)
Lemma initialize_frame P this :
  let o := initialize P this in
  sampleRate (this_after o) = sampleRate this
  /\ channelCount (this_after o) = channelCount this
  /\ bitDepth (this_after o) = bitDepth this
  /\ audioBuffer (this_after o) = audioBuffer this
  /\ isRecording (this_after o) = isRecording this
  /\ isPaused (this_after o) = isPaused this
  /\ (forall message, returned o = Throw message ->
        exists error,
          message = String.append "Failed to initialize audio recorder: " error).
Proof.
  unfold initialize, try_catch, mbind, M_bind, get_this, modify, call, lift, throw.
  cbn [returned this_after calls].
  destruct (getUserMedia P _) as [stream|e1]; cbn;
    [|split_and!; try done; intros ? [= <-]; by eexists].
  destruct (new_AudioContext P _) as [context|e2]; cbn;
    [|split_and!; try done; intros ? [= <-]; by eexists].
  destruct (createMediaStreamSource P _ _) as [source|e3]; cbn;
    [|split_and!; try done; intros ? [= <-]; by eexists].
  destruct (createScriptProcessor P _ _ _ _) as [processor|e4]; cbn;
    [|split_and!; try done; intros ? [= <-]; by eexists].
  split_and!; done.
Qed.
End Session.

(** ** Exact arithmetic on Numbers *)

Section Rounding.

Import Number.

(** The number of binary digits of a mantissa. *)
Lemma digits2_pos_bounds (m : positive) :
  2 ^ (Z.pos (digits2_pos m) - 1) <= Z.pos m < 2 ^ Z.pos (digits2_pos m).
Proof.
  induction m as [m IH|m IH|]; cbn [digits2_pos].
  - rewrite Pos2Z.inj_succ, (Pos2Z.inj_xI m).
    replace (Z.succ (Z.pos (digits2_pos m)) - 1)
      with (Z.succ (Z.pos (digits2_pos m) - 1)) by lia.
    rewrite (Z.pow_succ_r 2 (Z.pos (digits2_pos m) - 1)) by lia.
    rewrite (Z.pow_succ_r 2 (Z.pos (digits2_pos m))) by lia.
    lia.
  - rewrite Pos2Z.inj_succ, (Pos2Z.inj_xO m).
    replace (Z.succ (Z.pos (digits2_pos m)) - 1)
      with (Z.succ (Z.pos (digits2_pos m) - 1)) by lia.
    rewrite (Z.pow_succ_r 2 (Z.pos (digits2_pos m) - 1)) by lia.
    rewrite (Z.pow_succ_r 2 (Z.pos (digits2_pos m))) by lia.
    lia.
  - simpl. lia.
Qed.

Lemma digits2_pos_unique (m : positive) (d : Z) :
  2 ^ (d - 1) <= Z.pos m < 2 ^ d -> Z.pos (digits2_pos m) = d.
Proof.
  intros [H1 H2]. pose proof (digits2_pos_bounds m) as [B1 B2].
  assert (0 < d).
  { destruct (Z_lt_le_dec 0 d); [done|].
    assert (2 ^ d <= 2 ^ 0) by (apply Z.pow_le_mono_r; lia). simpl in *. lia. }
  assert (d - 1 < Z.pos (digits2_pos m)).
  { apply (Z.pow_lt_mono_r_iff 2); lia. }
  assert (Z.pos (digits2_pos m) - 1 < d).
  { apply (Z.pow_lt_mono_r_iff 2); lia. }
  lia.
Qed.

(** The digits of a product with a power of two. *)
Lemma digits2_pos_shift (m p : positive) (k : Z) :
  0 <= k -> Z.pos p = Z.pos m * 2 ^ k ->
  Z.pos (digits2_pos p) = Z.pos (digits2_pos m) + k.
Proof.
  intros Hk Hp. apply digits2_pos_unique.
  pose proof (digits2_pos_bounds m) as [B1 B2].
  rewrite Hp.
  replace (Z.pos (digits2_pos m) + k - 1) with (Z.pos (digits2_pos m) - 1 + k) by lia.
  rewrite !Z.pow_add_r by lia.
  assert (0 < 2 ^ k) by (apply Z.pow_pos_nonneg; lia).
  split; [apply Z.mul_le_mono_nonneg_r | apply Z.mul_lt_mono_pos_r]; lia.
Qed.

(** [iter_pos] is iteration. *)
Lemma iter_pos_nat {A} (f : A -> A) (p : positive) (x : A) :
  SpecFloat.iter_pos f p x = Nat.iter (Pos.to_nat p) f x.
Proof.
  revert x. induction p as [p IH|p IH|]; intros x; cbn [SpecFloat.iter_pos].
  - rewrite !IH, Pos2Nat.inj_xI.
    replace (S (2 * Pos.to_nat p)) with (Pos.to_nat p + (Pos.to_nat p + 1))%nat by lia.
    rewrite !Nat.iter_add. by cbn.
  - rewrite !IH, Pos2Nat.inj_xO.
    replace (2 * Pos.to_nat p)%nat with (Pos.to_nat p + Pos.to_nat p)%nat by lia.
    by rewrite Nat.iter_add.
  - reflexivity.
Qed.

(** Shifting out zero bits loses nothing. *)
Lemma shr_1_exact (m : positive) :
  shr_1 {| shr_m := Z.pos m~0; shr_r := false; shr_s := false |}
  = {| shr_m := Z.pos m; shr_r := false; shr_s := false |}.
Proof. reflexivity. Qed.

Lemma iter_shr_1_exact (n : nat) (m : positive) (z : Z) :
  z = Z.pos m * 2 ^ Z.of_nat n ->
  Nat.iter n shr_1 {| shr_m := z; shr_r := false; shr_s := false |}
  = {| shr_m := Z.pos m; shr_r := false; shr_s := false |}.
Proof.
  revert z. induction n as [|n IH]; intros z Hz.
  - simpl in *. f_equal. lia.
  - rewrite Nat.iter_succ_r.
    rewrite Nat2Z.inj_succ, Z.pow_succ_r in Hz by lia.
    assert (0 < 2 ^ Z.of_nat n) by (apply Z.pow_pos_nonneg; lia).
    destruct (Z.pos m * 2 ^ Z.of_nat n) as [|q|q] eqn:Hq; try lia.
    replace z with (Z.pos q~0) by lia.
    rewrite shr_1_exact. apply IH. lia.
Qed.

Lemma fexp_normal (e : Z) : - 1021 <= e -> fexp prec emax e = e - 53.
Proof. unfold fexp, emin, prec, emax. lia. Qed.

Lemma shr_exact (P M : positive) (E k : Z) :
  0 <= k -> Z.pos P = Z.pos M * 2 ^ k ->
  shr {| shr_m := Z.pos P; shr_r := false; shr_s := false |} E k
  = ({| shr_m := Z.pos M; shr_r := false; shr_s := false |}, E + k).
Proof.
  intros Hk HP. destruct k as [|k|k]; [| |lia].
  - cbn [shr]. rewrite Z.pow_0_r in HP. f_equal; [f_equal|]; lia.
  - cbn [shr]. rewrite iter_pos_nat. f_equal.
    apply iter_shr_1_exact. by rewrite positive_nat_Z.
Qed.

(** Rounding a mantissa that is a 53-bit mantissa followed by zero bits
    is exact. *)
Lemma binary_round_aux_exact (s : bool) (P M : positive) (E k : Z) :
  0 <= k -> Z.pos P = Z.pos M * 2 ^ k ->
  Z.pos (digits2_pos M) = 53 ->
  - 1074 <= E + k <= 971 ->
  binary_round_aux prec emax s (Z.pos P) E loc_Exact = S754_finite s M (E + k).
Proof.
  intros Hk HP HM HE.
  pose proof (digits2_pos_shift M P k Hk HP) as HdP.
  unfold binary_round_aux, shr_fexp.
  cbn [Zdigits2 shr_record_of_loc].
  rewrite fexp_normal by lia.
  replace (Z.pos (digits2_pos P) + E - 53 - E) with k by lia.
  rewrite (shr_exact P M E k) by done.
  cbn [shr_m loc_of_shr_record round_nearest_even Zdigits2 shr_record_of_loc].
  rewrite fexp_normal by lia.
  replace (Z.pos (digits2_pos M) + (E + k) - 53 - (E + k)) with 0 by lia.
  cbn [shr shr_m].
  unfold emax, prec. by rewrite Zle_imp_le_bool by lia.
Qed.

Lemma normalized_mantissa (m : positive) :
  Z.pos (digits2_pos m) <= 53 ->
  let M := Z.to_pos (Z.pos m * 2 ^ (53 - Z.pos (digits2_pos m))) in
  Z.pos M = Z.pos m * 2 ^ (53 - Z.pos (digits2_pos m))
  /\ Z.pos (digits2_pos M) = 53.
Proof.
  intros Hd M.
  assert (0 < 2 ^ (53 - Z.pos (digits2_pos m))) by (apply Z.pow_pos_nonneg; lia).
  assert (Z.pos M = Z.pos m * 2 ^ (53 - Z.pos (digits2_pos m))) as HM.
  { unfold M. rewrite Z2Pos.id; [done | lia]. }
  split; [done|].
  rewrite (digits2_pos_shift m M (53 - Z.pos (digits2_pos m))); [lia | lia | done].
Qed.

Lemma Pos_iter_xO (m k : positive) :
  Z.pos (Pos.iter xO m k) = Z.pos m * 2 ^ Z.pos k.
Proof.
  induction k as [|k IH] using Pos.peano_ind.
  - cbn [Pos.iter]. lia.
  - rewrite Pos.iter_succ, Pos2Z.inj_succ, Z.pow_succ_r by lia.
    rewrite (Pos2Z.inj_xO (Pos.iter xO m k)), IH. lia.
Qed.

(** Reading a binary32 value gives the same value as a binary64
    number. *)
Lemma to_number_normalized (s : bool) (m : positive) (e : Z) :
  Float32.is_float32 (S754_finite s m e) = true ->
  Float32.to_number (S754_finite s m e) = normalized s m e
  /\ Z.pos (digits2_pos m) <= 24 /\ - 149 <= e <= 104.
Proof.
  unfold Float32.is_float32, valid_binary, bounded, canonical_mantissa, fexp, emin.
  intros [Hc He]%andb_true_iff.
  apply Z.eqb_eq in Hc. apply Z.leb_le in He.
  assert (Z.pos (digits2_pos m) <= 24 /\ - 149 <= e <= 104) as Hb by lia.
  split; [|exact Hb].
  destruct (normalized_mantissa m) as [HM HdM]; [lia|].
  unfold Float32.to_number, binary_round, normalized.
  rewrite fexp_normal by lia.
  unfold shl_align.
  destruct (Z.pos (digits2_pos m) + e - 53 - e) as [|q|q] eqn:Hq; try lia.
  assert (Pos.iter xO m q
          = Z.to_pos (Z.pos m * 2 ^ (53 - Z.pos (digits2_pos m)))) as Hmz.
  { apply Pos2Z.inj. rewrite HM, Pos_iter_xO. f_equal. f_equal. lia. }
  rewrite Hmz.
  set (M := Z.to_pos (Z.pos m * 2 ^ (53 - Z.pos (digits2_pos m)))) in *.
  rewrite (binary_round_aux_exact s M M (Z.pos (digits2_pos m) + e - 53) 0);
    [f_equal; lia | lia | lia | done | lia].
Qed.

(** The product of two numbers whose mantissas multiply to at most 53
    bits is computed exactly. *)
Lemma mul_normalized (s1 s2 : bool) (m1 m2 : positive) (e1 e2 : Z) :
  Z.pos (digits2_pos m1) <= 53 ->
  Z.pos (digits2_pos m2) <= 53 ->
  Z.pos (digits2_pos (m1 * m2)) <= 53 ->
  - 1021 <= e1 + e2 + Z.pos (digits2_pos (m1 * m2)) <= 1024 ->
  mul (normalized s1 m1 e1) (normalized s2 m2 e2)
  = normalized (xorb s1 s2) (m1 * m2) (e1 + e2).
Proof.
  intros Hd1 Hd2 Hd He.
  destruct (normalized_mantissa m1 Hd1) as [HM1 _].
  destruct (normalized_mantissa m2 Hd2) as [HM2 _].
  destruct (normalized_mantissa (m1 * m2) Hd) as [HM HdM].
  pose proof (digits2_pos_bounds m1) as [L1 U1].
  pose proof (digits2_pos_bounds m2) as [L2 U2].
  pose proof (digits2_pos_bounds (m1 * m2)) as [L U].
  set (d1 := Z.pos (digits2_pos m1)) in *.
  set (d2 := Z.pos (digits2_pos m2)) in *.
  set (d := Z.pos (digits2_pos (m1 * m2))) in *.
  assert (0 < d1 /\ 0 < d2 /\ 0 < d) as (P1 & P2 & P) by (unfold d1, d2, d; lia).
  assert (d1 + d2 - 1 <= d) as Hlow.
  { assert (d1 - 1 + (d2 - 1) < d); [|lia].
    apply (Z.pow_lt_mono_r_iff 2); [lia | lia |].
    rewrite Z.pow_add_r by lia. rewrite Pos2Z.inj_mul in U. nia. }
  unfold mul, SFmul, normalized. fold d1 d2 d.
  rewrite (binary_round_aux_exact _ _
             (Z.to_pos (Z.pos (m1 * m2) * 2 ^ (53 - d)))
             _ (53 - d1 + (53 - d2) - (53 - d))); [f_equal; lia | lia | | done | lia].
  rewrite Pos2Z.inj_mul, HM1, HM2, HM, Pos2Z.inj_mul.
  replace (53 - d1 + (53 - d2) - (53 - d)) with (d - d1 - d2 + 53) by lia.
  replace (53 - d1) with ((d - d1 - d2 + 53) - (d - d2)) at 1 by lia.
  assert (2 ^ (53 - d1) * 2 ^ (53 - d2) = 2 ^ (53 - d) * 2 ^ (d - d1 - d2 + 53)) as Hpow.
  { rewrite <- !Z.pow_add_r by lia. f_equal. lia. }
  replace (d - d1 - d2 + 53 - (d - d2)) with (53 - d1) by lia.
  nia.
Qed.

(** The integer part of a number in normal form. *)
Lemma truncate_normalized (s : bool) (m : positive) (e : Z) :
  Z.pos (digits2_pos m) <= 53 ->
  truncate (normalized s m e) = cond_Zopp s (Z.shiftl (Z.pos m) e).
Proof.
  intros Hd. destruct (normalized_mantissa m Hd) as [HM _].
  unfold truncate, normalized. rewrite HM.
  rewrite <- Z.shiftl_mul_pow2 by lia.
  rewrite Z.shiftl_shiftl by lia.
  do 2 f_equal. lia.
Qed.

(** Comparison of two positive numbers in normal form is the
    comparison of their values. *)
Lemma compare_normalized (m1 m2 : positive) (e1 e2 : Z) :
  Z.pos (digits2_pos m1) <= 53 ->
  Z.pos (digits2_pos m2) <= 53 ->
  SFcompare (normalized false m1 e1) (normalized false m2 e2)
  = Some (dyadic_compare m1 e1 m2 e2).
Proof.
  intros Hd1 Hd2.
  destruct (normalized_mantissa m1 Hd1) as [HM1 _].
  destruct (normalized_mantissa m2 Hd2) as [HM2 _].
  pose proof (digits2_pos_bounds m1) as [L1 U1].
  pose proof (digits2_pos_bounds m2) as [L2 U2].
  unfold normalized, dyadic_compare, SFcompare.
  set (d1 := Z.pos (digits2_pos m1)) in *.
  set (d2 := Z.pos (digits2_pos m2)) in *.
  set (z := Z.min e1 e2).
  assert (0 < d1 /\ 0 < d2) as [P1 P2] by (unfold d1, d2; lia).
  assert (forall a b, 0 <= a -> 2 ^ a * 2 ^ b = 2 ^ (a + b) \/ b < 0) as Hadd.
  { intros a b Ha. destruct (Z_lt_le_dec b 0); [by right|left].
    by rewrite Z.pow_add_r. }
  f_equal.
  destruct (Z.compare_spec (e1 - (53 - d1)) (e2 - (53 - d2))) as [HE|HE|HE].
  - (* same exponent: the mantissas decide *)
    rewrite Pos.compare_cont_spec.
    rewrite Pos2Z.inj_compare, HM1, HM2.
    assert (0 <= z - (e1 - (53 - d1))) as Hz by (unfold z; lia).
    replace (53 - d1) with ((e1 - z) + (z - (e1 - (53 - d1)))) by lia.
    replace (53 - d2) with ((e2 - z) + (z - (e1 - (53 - d1)))) by lia.
    rewrite !Z.pow_add_r, !Z.mul_assoc by (unfold z; lia).
    rewrite <- Zmult_compare_compat_r
      by (apply Z.lt_gt, Z.pow_pos_nonneg; lia).
    by destruct (_ ?= _).
  - (* smaller exponent: smaller value *)
    symmetry. apply Z.compare_lt_iff.
    apply Z.lt_le_trans with (2 ^ (d1 + (e1 - z))).
    + rewrite Z.pow_add_r by (unfold z; lia).
      apply Z.mul_lt_mono_pos_r; [apply Z.pow_pos_nonneg; unfold z; lia | done].
    + apply Z.le_trans with (2 ^ (d2 - 1 + (e2 - z))).
      * apply Z.pow_le_mono_r; lia.
      * rewrite Z.pow_add_r by (unfold z; lia).
        apply Z.mul_le_mono_nonneg_r; [apply Z.pow_nonneg; lia | done].
  - symmetry. apply Z.compare_gt_iff.
    apply Z.lt_le_trans with (2 ^ (d2 + (e2 - z))).
    + rewrite Z.pow_add_r by (unfold z; lia).
      apply Z.mul_lt_mono_pos_r; [apply Z.pow_pos_nonneg; unfold z; lia | done].
    + apply Z.le_trans with (2 ^ (d1 - 1 + (e1 - z))).
      * apply Z.pow_le_mono_r; lia.
      * rewrite Z.pow_add_r by (unfold z; lia).
        apply Z.mul_le_mono_nonneg_r; [apply Z.pow_nonneg; lia | done].
Qed.

(** Between negative numbers the order is reversed. *)
Lemma compare_negative (m1 m2 : positive) (e1 e2 : Z) :
  SFcompare (S754_finite true m1 e1) (S754_finite true m2 e2)
  = option_map CompOpp (SFcompare (S754_finite false m1 e1) (S754_finite false m2 e2)).
Proof.
  unfold SFcompare. cbn [option_map]. by destruct (e1 ?= e2).
Qed.
End Rounding.

(** ** Clamping and scaling of samples *)

Section Clamp.
Import Number.

Lemma of_Z_one : of_Z 1 = S754_finite false 4503599627370496 (-52).
Proof. vm_compute. reflexivity. Qed.

Lemma of_Z_minus_one : of_Z (-1) = S754_finite true 4503599627370496 (-52).
Proof. vm_compute. reflexivity. Qed.

Lemma Math_min_one (y : number) :
  Math_min (of_Z 1) y
  = if is_nan y then NaN else if lt y (of_Z 1) then y else of_Z 1.
Proof.
  rewrite of_Z_one. unfold Math_min.
  change (is_nan (S754_finite false 4503599627370496 (-52))) with false.
  change (min_step pInfinity (S754_finite false 4503599627370496 (-52)))
    with (S754_finite false 4503599627370496 (-52)).
  cbn [orb]. destruct (is_nan y); [done|].
  unfold min_step. cbn [is_poszero]. by rewrite andb_false_r.
Qed.

Lemma Math_max_minus_one (z : number) :
  Math_max (of_Z (-1)) z
  = if is_nan z then NaN else if lt (of_Z (-1)) z then z else of_Z (-1).
Proof.
  rewrite of_Z_minus_one. unfold Math_max.
  change (is_nan (S754_finite true 4503599627370496 (-52))) with false.
  change (max_step nInfinity (S754_finite true 4503599627370496 (-52)))
    with (S754_finite true 4503599627370496 (-52)).
  cbn [orb]. destruct (is_nan z); [done|].
  unfold max_step. cbn [is_negzero]. by rewrite andb_false_r.
Qed.

(** Comparing a finite number with a positive one, both ways. *)
Lemma compare_finite_swap (s : bool) (m M : positive) (e E : Z) :
  SFcompare (S754_finite s M E) (S754_finite s m e)
  = option_map CompOpp (SFcompare (S754_finite s m e) (S754_finite s M E)).
Proof.
  unfold SFcompare. cbn [option_map]. f_equal.
  rewrite (Z.compare_antisym e E).
  assert (Pos.compare_cont Eq M m = CompOpp (Pos.compare_cont Eq m M)) as ->
    by (symmetry; apply (Pos.compare_cont_antisym m M Eq)).
  destruct s, (e ?= E); cbn [CompOpp]; try done.
Qed.

Lemma compare_finite_Eq (s : bool) (m M : positive) (e E : Z) :
  SFcompare (S754_finite s m e) (S754_finite s M E) = Some Eq ->
  S754_finite s m e = S754_finite s M E.
Proof.
  unfold SFcompare. intros [= H].
  destruct s.
  - destruct (Z.compare_spec e E) as [->| |]; try done.
    destruct (Pos.compare_cont Eq m M) eqn:Hm; try done.
    apply Pos.compare_eq in Hm. by subst.
  - destruct (Z.compare_spec e E) as [->| |]; try done.
    apply Pos.compare_eq in H. by subst.
Qed.

(** The nested [Math.max]/[Math.min] of the source is clamping by
    cases, on every Number. *)
Lemma max_min_clamp (y : number) :
  Math_max (of_Z (-1)) (Math_min (of_Z 1) y) = clamp y.
Proof.
  rewrite Math_max_minus_one, Math_min_one. unfold clamp.
  rewrite of_Z_one, of_Z_minus_one.
  destruct y as [s|s| |s m e].
  - destruct s; vm_compute; reflexivity.
  - destruct s; vm_compute; reflexivity.
  - vm_compute; reflexivity.
  - cbn [is_nan]. unfold lt, SFltb.
    destruct s.
    + (* negative: only the lower bound matters *)
      change (SFcompare (S754_finite true m e)
                (S754_finite false 4503599627370496 (-52))) with (Some Lt).
      change (SFcompare (S754_finite false 4503599627370496 (-52))
                (S754_finite true m e)) with (Some Gt).
      cbn [is_nan].
      rewrite (compare_finite_swap true m 4503599627370496 e (-52)).
      destruct (SFcompare (S754_finite true m e)
                  (S754_finite true 4503599627370496 (-52))) as [[]|] eqn:Hc;
        cbn [option_map CompOpp is_nan];
        first [ done
              | symmetry; by apply compare_finite_Eq
              | unfold SFcompare in Hc; discriminate Hc ].
    + (* positive: only the upper bound matters *)
      change (SFcompare (S754_finite false m e)
                (S754_finite true 4503599627370496 (-52))) with (Some Gt).
      rewrite (compare_finite_swap false m 4503599627370496 e (-52)).
      destruct (SFcompare (S754_finite false m e)
                  (S754_finite false 4503599627370496 (-52))) as [[]|] eqn:Hc;
        cbn [option_map CompOpp is_nan];
        first [ done
              | by apply compare_finite_Eq
              | symmetry; by apply compare_finite_Eq
              | unfold SFcompare in Hc; discriminate Hc ].
Qed.
End Clamp.

(** ** The scaled sample *)

Section Scaling.
Import Number.

Lemma dyadic_compare_antisym m1 e1 m2 e2 :
  dyadic_compare m2 e2 m1 e1 = CompOpp (dyadic_compare m1 e1 m2 e2).
Proof.
  unfold dyadic_compare. rewrite (Z.min_comm e2 e1). apply Z.compare_antisym.
Qed.

(** A value that is not above one. *)
Lemma dyadic_not_above_one (m : positive) (e : Z) :
  dyadic_compare 1 0 m e <> Lt -> e <= 0 /\ Z.pos m <= 2 ^ (- e).
Proof.
  unfold dyadic_compare. intros H.
  destruct (Z_le_gt_dec e 0) as [He|He].
  - split; [done|].
    rewrite Z.min_r, Z.sub_diag, Z.pow_0_r in H by lia.
    apply Z.compare_ge_iff in H. replace (- e) with (0 - e) by lia. lia.
  - exfalso. apply H.
    rewrite Z.min_l, Z.sub_diag, Z.pow_0_r, !Z.sub_0_r by lia.
    apply Z.compare_lt_iff.
    assert (2 ^ 1 <= 2 ^ e) by (apply Z.pow_le_mono_r; lia).
    change (2 ^ 1) with 2 in *. nia.
Qed.

Lemma digits2_pos_le (p : positive) (k : Z) :
  Z.pos p < 2 ^ k -> Z.pos (digits2_pos p) <= k.
Proof.
  intros H. pose proof (digits2_pos_bounds p) as [L _].
  assert (Z.pos (digits2_pos p) - 1 < k); [|lia].
  apply (Z.pow_lt_mono_r_iff 2); [lia| |lia].
  destruct (Z_lt_le_dec k 0); [|done].
  rewrite Z.pow_neg_r in H by done. lia.
Qed.

Lemma of_Z_scale (s : bool) :
  of_Z (Z.pos (scale s)) = normalized false (scale s) 0.
Proof. destruct s; vm_compute; reflexivity. Qed.

Lemma of_Z_one_normalized : of_Z 1 = normalized false 1 0.
Proof. vm_compute. reflexivity. Qed.

Lemma of_Z_minus_one_normalized : of_Z (-1) = normalized true 1 0.
Proof. vm_compute. reflexivity. Qed.

(** The scaled sample of a binary32 value of magnitude at most one is
    the exact product. *)
Lemma mul_scale (s : bool) (m : positive) (e : Z) :
  Z.pos (digits2_pos m) <= 24 -> - 149 <= e <= 104 ->
  mul (normalized s m e) (of_Z (Z.pos (scale s))) = normalized s (m * scale s) e
  /\ Z.pos (digits2_pos (m * scale s)) <= 40.
Proof.
  intros Hd He.
  pose proof (digits2_pos_bounds m) as [_ U].
  assert (2 ^ Z.pos (digits2_pos m) <= 2 ^ 24) by (apply Z.pow_le_mono_r; lia).
  assert (Z.pos (digits2_pos (m * scale s)) <= 40) as Hds.
  { apply digits2_pos_le. rewrite Pos2Z.inj_mul.
    change (2 ^ 40) with (2 ^ 24 * 65536).
    assert (Z.pos (scale s) <= 32768) by (destruct s; simpl; lia). nia. }
  split; [|done].
  rewrite of_Z_scale, mul_normalized.
  - by rewrite xorb_false_r, Z.add_0_r.
  - lia.
  - destruct s; vm_compute; discriminate.
  - lia.
  - pose proof (Pos2Z.is_pos (digits2_pos (m * scale s))). lia.
Qed.

Lemma normalized_finite (s : bool) (m : positive) (e : Z) :
  exists M E, normalized s m e = S754_finite s M E
              /\ normalized (negb s) m e = S754_finite (negb s) M E.
Proof. unfold normalized. by eexists _, _. Qed.

(** A sample is clamped exactly when its magnitude is above one. *)
Lemma clamp_normalized (s : bool) (m : positive) (e : Z) :
  Z.pos (digits2_pos m) <= 53 ->
  clamp (normalized s m e)
  = match dyadic_compare 1 0 m e with
    | Lt => if s then of_Z (-1) else of_Z 1
    | _ => normalized s m e
    end.
Proof.
  intros Hd. unfold clamp, lt, SFltb.
  rewrite of_Z_one_normalized, of_Z_minus_one_normalized.
  destruct s.
  - assert (SFcompare (normalized true m e) (normalized true 1 0)
            = Some (dyadic_compare 1 0 m e)) as ->.
    { unfold normalized at 1 2. rewrite compare_negative.
      fold (normalized false m e). fold (normalized false 1 0).
      rewrite compare_normalized by (done || (vm_compute; discriminate)).
      cbn [option_map]. by rewrite dyadic_compare_antisym, CompOpp_involutive. }
    assert (SFcompare (normalized false 1 0) (normalized true m e) = Some Gt) as ->
      by reflexivity.
    by destruct (dyadic_compare 1 0 m e).
  - assert (SFcompare (normalized false m e) (normalized true 1 0) = Some Gt) as ->
      by reflexivity.
    rewrite compare_normalized by (done || (vm_compute; discriminate)).
    by destruct (dyadic_compare 1 0 m e).
Qed.

(** The value [pcmSample] of a finite binary32 sample [±m·2^e]: the
    clamped bound scaled, or the exact product with the scale. *)
Lemma pcmSample_of_finite (s : bool) (m : positive) (e : Z) :
  Float32.is_float32 (S754_finite s m e) = true ->
  pcmSample_of (S754_finite s m e)
  = match dyadic_compare 1 0 m e with
    | Lt => if s then of_Z (-32768) else of_Z 32767
    | _ => normalized s (m * scale s) e
    end.
Proof.
  intros Hx. destruct (to_number_normalized s m e Hx) as (Hy & Hd & He).
  unfold pcmSample_of, sample_of. rewrite max_min_clamp, Hy.
  rewrite clamp_normalized by lia.
  assert (lt (normalized s m e) (of_Z 0) = s) as Hneg by (by destruct s).
  assert (mul (normalized s m e) (if s then of_Z 32768 else of_Z 32767)
          = normalized s (m * scale s) e) as Hmul.
  { destruct (mul_scale s m e Hd He) as [<- _]. by destruct s. }
  destruct (dyadic_compare 1 0 m e); cbv zeta.
  - rewrite Hneg. by destruct s.
  - destruct s; vm_compute; reflexivity.
  - rewrite Hneg. by destruct s.
Qed.
End Scaling.

(** ** The range of the scaled sample *)

Section Range.
Import Number.

(** The integer part of an unclamped scaled sample: at most the scale,
    in magnitude. *)
Lemma shiftl_scaled_range (s : bool) (m : positive) (e : Z) :
  e <= 0 -> Z.pos m <= 2 ^ (- e) ->
  0 <= Z.shiftl (Z.pos (m * scale s)) e <= Z.pos (scale s).
Proof.
  intros He Hm. rewrite Z.shiftl_div_pow2 by done.
  assert (0 < 2 ^ (- e)) by (apply Z.pow_pos_nonneg; lia).
  split.
  - apply Z.div_pos; lia.
  - apply Z.div_le_upper_bound; [done|]. rewrite Pos2Z.inj_mul. nia.
Qed.

Lemma le_normalized (m1 m2 : positive) (e1 e2 : Z) :
  Z.pos (digits2_pos m1) <= 53 ->
  Z.pos (digits2_pos m2) <= 53 ->
  dyadic_compare m1 e1 m2 e2 <> Gt ->
  le (normalized false m1 e1) (normalized false m2 e2) = true
  /\ le (normalized true m2 e2) (normalized true m1 e1) = true.
Proof.
  intros H1 H2 Hc. unfold le, SFleb.
  assert (SFcompare (normalized true m2 e2) (normalized true m1 e1)
          = Some (dyadic_compare m1 e1 m2 e2)) as ->.
  { unfold normalized at 1 2. rewrite compare_negative.
    fold (normalized false m1 e1). fold (normalized false m2 e2).
    rewrite compare_normalized by done.
    cbn [option_map]. by rewrite dyadic_compare_antisym, CompOpp_involutive. }
  rewrite compare_normalized by done.
  by destruct (dyadic_compare m1 e1 m2 e2).
Qed.

Lemma scaled_not_above_scale (s : bool) (m : positive) (e : Z) :
  e <= 0 -> Z.pos m <= 2 ^ (- e) ->
  dyadic_compare (m * scale s) e (scale s) 0 <> Gt.
Proof.
  intros He Hm. unfold dyadic_compare.
  rewrite Z.min_l, Z.sub_diag, Z.pow_0_r, Z.sub_0_l by lia.
  apply Z.compare_le_iff. rewrite Pos2Z.inj_mul.
  assert (0 < 2 ^ (- e)) by (apply Z.pow_pos_nonneg; lia). nia.
Qed.

(** The stored value of an unclamped finite sample is the integer
    part of the exact product with its scale. *)
Lemma unclamped_sample (s : bool) (m : positive) (e : Z) :
  Float32.is_float32 (S754_finite s m e) = true ->
  dyadic_compare 1 0 m e <> Lt ->
  let v := normalized s (m * scale s) e in
  pcmSample_of (S754_finite s m e) = v
  /\ truncate v = cond_Zopp s (Z.shiftl (Z.pos (m * scale s)) e)
  /\ ToInt16 v = truncate v
  /\ - 2 ^ 15 <= truncate v <= 2 ^ 15 - 1
  /\ le (of_Z (-32768)) v = true
  /\ le v (of_Z 32767) = true.
Proof.
  intros Hx Hc v.
  destruct (to_number_normalized s m e Hx) as (_ & Hd & He).
  destruct (mul_scale s m e Hd He) as [_ HdP].
  destruct (dyadic_not_above_one m e Hc) as [He0 Hm].
  pose proof (shiftl_scaled_range s m e He0 Hm) as Ht.
  pose proof (scaled_not_above_scale s m e He0 Hm) as Hle.
  assert (truncate v = cond_Zopp s (Z.shiftl (Z.pos (m * scale s)) e)) as Htr
    by (apply truncate_normalized; lia).
  assert (- 2 ^ 15 <= truncate v <= 2 ^ 15 - 1) as Hrange
    by (rewrite Htr; destruct s; cbn [cond_Zopp scale] in *; lia).
  split; [|split; [exact Htr|split; [|split; [exact Hrange|split]]]].
  - rewrite pcmSample_of_finite by done.
    by destruct (dyadic_compare 1 0 m e).
  - unfold v in *.
    destruct (normalized_finite s (m * scale s) e) as (M & E & HN & _).
    rewrite HN in *. cbn [ToInt16]. apply signed16_mod. lia.
  - destruct (le_normalized (m * scale s) (scale s) e 0) as [Hpos Hneg];
      [lia | destruct s; vm_compute; discriminate | done |].
    unfold v. destruct s; cbn [scale] in *; [exact Hneg | reflexivity].
  - destruct (le_normalized (m * scale s) (scale s) e 0) as [Hpos Hneg];
      [lia | destruct s; vm_compute; discriminate | done |].
    unfold v. destruct s; cbn [scale] in *; [reflexivity | exact Hpos].
Qed.

End Range.

(** ** Interleaving *)

Section Interleave.

Local Open Scope nat_scope.

Lemma frame_index_inj (n k k' c c' : nat) :
  c < n -> c' < n -> k * n + c = k' * n + c' -> k = k' /\ c = c'.
Proof. intros Hc Hc' H. assert (k = k') by nia. subst. lia. Qed.

Lemma copy_channel_length nCh channel channelData :
  forall i audioData,
    length (copy_channel nCh channel i channelData audioData) = length audioData.
Proof.
  induction channelData as [|x rest IH]; intros i audioData; cbn [copy_channel].
  - done.
  - rewrite IH. apply length_insert.
Qed.

(** The inner loop leaves alone every index it does not name. *)
Lemma copy_channel_other nCh channel channelData :
  forall i (audioData : Float32Array) j,
    (forall k, k < length channelData -> j <> (i + k) * nCh + channel) ->
    copy_channel nCh channel i channelData audioData !! j = audioData !! j.
Proof.
  induction channelData as [|x rest IH]; intros i audioData j Hj; cbn [copy_channel].
  - done.
  - rewrite IH.
    + apply list_lookup_insert_ne. intros H.
      apply (Hj 0); [cbn [length]; lia | rewrite Nat.add_0_r; done].
    + intros k Hk.
      replace (S i + k) with (i + S k) by lia. apply Hj. cbn [length]. lia.
Qed.

(** The inner loop stores sample [k] of the channel at frame [i + k]. *)
Lemma copy_channel_frame nCh channel channelData :
  forall i (audioData : Float32Array) k x,
    channel < nCh ->
    channelData !! k = Some x ->
    (i + k) * nCh + channel < length audioData ->
    copy_channel nCh channel i channelData audioData !! ((i + k) * nCh + channel)
    = Some x.
Proof.
  induction channelData as [|x0 rest IH]; intros i audioData k x Hc Hk Hlen;
    cbn [copy_channel]; [done|].
  destruct k as [|k].
  - injection Hk as ->. rewrite Nat.add_0_r in *.
    rewrite copy_channel_other.
    + by apply list_lookup_insert_eq.
    + intros k _ H.
      destruct (frame_index_inj nCh i (S i + k) channel channel Hc Hc H). lia.
  - replace (i + S k) with (S i + k) in * by lia.
    apply IH; [done | done |]. unfold Float32Array in *. by rewrite length_insert.
Qed.

Lemma interleave_from_length nCh chans :
  forall channel audioData,
    length (interleave_from nCh channel chans audioData) = length audioData.
Proof.
  induction chans as [|channelData rest IH]; intros channel audioData;
    cbn [interleave_from]; [done|].
  by rewrite IH, copy_channel_length.
Qed.

(** The loops leave alone every index that is not a sample of a
    channel. *)
Lemma interleave_from_other nCh chans :
  forall channel (audioData : Float32Array) j,
    (forall d channelData k,
        chans !! d = Some channelData -> k < length channelData ->
        j <> k * nCh + (channel + d)) ->
    interleave_from nCh channel chans audioData !! j = audioData !! j.
Proof.
  induction chans as [|channelData rest IH]; intros channel audioData j Hj;
    cbn [interleave_from]; [done|].
  rewrite IH.
  - apply copy_channel_other. intros k Hk.
    specialize (Hj 0 channelData k eq_refl Hk).
    by rewrite Nat.add_0_r in Hj.
  - intros d cd k Hd Hk.
    replace (S channel + d) with (channel + S d) by lia.
    by apply (Hj (S d) cd k).
Qed.

(** The loops store sample [k] of channel [channel + d] in frame [k]. *)
Lemma interleave_from_frame nCh chans :
  forall channel (audioData : Float32Array) d channelData k x,
    chans !! d = Some channelData ->
    channelData !! k = Some x ->
    channel + length chans <= nCh ->
    k * nCh + (channel + d) < length audioData ->
    interleave_from nCh channel chans audioData !! (k * nCh + (channel + d))
    = Some x.
Proof.
  induction chans as [|cd0 rest IH];
    intros channel audioData d channelData k x Hd Hk Hn Hlen;
    cbn [interleave_from]; [done|].
  cbn [length] in Hn.
  destruct d as [|d].
  - injection Hd as ->. rewrite Nat.add_0_r in *.
    rewrite interleave_from_other.
    + apply (copy_channel_frame nCh channel channelData 0); [lia | done | done].
    + intros d cd k' Hd' Hk' H.
      apply lookup_lt_Some in Hd'. unfold Float32Array in *.
      destruct (frame_index_inj nCh k k' channel (S channel + d)); [lia | lia | done | lia].
  - replace (channel + S d) with (S channel + d) in * by lia.
    apply (IH (S channel) _ d channelData); [done | done | lia |].
    by rewrite copy_channel_length.
Qed.

(** X1. The chunk built by the callback has one slot per frame and
    channel; frame [k] holds, at offset [c], sample [k] of channel [c]
    (zero where the channel array is shorter than the block). *)
Theorem interleave_frames (b : AudioBuffer) (c k : nat) (channelData : Float32Array) :
  channels b !! c = Some channelData ->
  k < inputBuffer_length b ->
  length (interleave b) = inputBuffer_length b * numberOfChannels b
  /\ interleave b !! (k * numberOfChannels b + c)
     = Some (default Float32.zero (channelData !! k)).
Proof.
  intros Hc Hk. unfold interleave.
  set (nCh := numberOfChannels b).
  assert (c < nCh) as Hcn by (by apply lookup_lt_Some in Hc).
  assert (k * nCh + c < inputBuffer_length b * nCh) as Hidx by nia.
  split; [by rewrite interleave_from_length, length_replicate|].
  destruct (channelData !! k) as [x|] eqn:Hx; cbn [default].
  - apply (interleave_from_frame nCh (channels b) 0 _ c channelData k x);
      [done | done | done | by rewrite length_replicate].
  - rewrite interleave_from_other.
    + by apply lookup_replicate_2.
    + intros d cd k' Hd Hk' H. cbn [Nat.add] in H.
      assert (d < nCh) by (by apply lookup_lt_Some in Hd).
      destruct (frame_index_inj nCh k k' c d) as [-> ->]; [done..|].
      unfold Float32Array in *.
      assert (cd = channelData) as -> by congruence.
      apply lookup_ge_None in Hx. lia.
Qed.

Lemma interleave_frames_witness :
  interleave stereo_block !! (1 * numberOfChannels stereo_block + 0)
  = Some f32_minus_half.
Proof.
  apply (interleave_frames stereo_block 0 1 [f32_half; f32_minus_half]).
  - reflexivity.
  - vm_compute. lia.
Defined.
End Interleave.

(** ** Reachable states *)

Section Reachable.

Lemma initialize_keeps_initialized P this :
  initialized this = true -> initialized (this_after (initialize P this)) = true.
Proof.
  unfold initialized, initialize, try_catch, mbind, M_bind, get_this, modify, call,
    lift, throw.
  intros H.
  destruct (getUserMedia P _) as [stream|e1]; cbn; [|done].
  destruct (new_AudioContext P _) as [context|e2]; cbn; [|done].
  destruct (createMediaStreamSource P _ _) as [source|e3]; cbn.
  2: { apply andb_true_iff in H as [_ H]. by rewrite H. }
  destruct (createScriptProcessor P _ _ _ _) as [processor|e4]; cbn; [done|].
  apply andb_true_iff in H as [_ H]. by rewrite H.
Qed.

Lemma perform_format o this :
  sampleRate (perform o this) = sampleRate this
  /\ channelCount (perform o this) = channelCount this
  /\ bitDepth (perform o this) = bitDepth this.
Proof.
  destruct o; cbn [perform].
  - destruct (initialize_frame P this) as (H1 & H2 & H3 & _). by split_and!.
  - rewrite startRecording_eq. by destruct (initialized this).
  - done.
  - done.
  - rewrite stopRecording_eq. by destruct (isRecording this).
  - done.
  - by rewrite cleanup_eq.
  - rewrite onaudioprocess_eq. by destruct (isRecording this && negb (isPaused this)).
Qed.

Lemma perform_consistent o this : consistent this -> consistent (perform o this).
Proof.
  unfold consistent. intros [Hi Hb]. destruct o; cbn [perform].
  - destruct (initialize_frame P this) as (_ & _ & _ & -> & -> & _).
    split; [|exact Hb]. intros H. by apply initialize_keeps_initialized, Hi.
  - rewrite startRecording_eq.
    destruct (initialized this) eqn:Hinit; cbn [this_after];
      [|intuition congruence].
    unfold initialized in *. destruct this; cbn in *. intuition congruence.
  - unfold initialized in *. destruct this; cbn in *. intuition congruence.
  - unfold initialized in *. destruct this; cbn in *. intuition congruence.
  - rewrite stopRecording_eq.
    destruct (isRecording this) eqn:Hr; cbn [this_after];
      [|rewrite ?Hr; intuition congruence].
    unfold initialized in *. destruct this; cbn in *. intuition congruence.
  - cbn. intuition congruence.
  - rewrite cleanup_eq. cbn. intuition congruence.
  - rewrite onaudioprocess_eq.
    destruct (isRecording this && negb (isPaused this)) eqn:Hc; cbn [this_after];
      [|intuition congruence].
    apply andb_true_iff in Hc as [Hr _].
    unfold initialized in *. destruct this; cbn in *. intuition congruence.
Qed.

Lemma perform_all_invariant ops :
  forall this,
    consistent this ->
    consistent (perform_all ops this)
    /\ sampleRate (perform_all ops this) = sampleRate this
    /\ channelCount (perform_all ops this) = channelCount this
    /\ bitDepth (perform_all ops this) = bitDepth this.
Proof.
  unfold perform_all.
  induction ops as [|o ops IH]; intros this Hc; cbn [fold_left]; [done|].
  destruct (IH (perform o this) (perform_consistent o this Hc)) as (H & -> & -> & ->).
  split; [done|]. apply perform_format.
Qed.

(** X2. Whatever sequence of method calls and callbacks a recorder
    goes through after its construction, with any platform behaviour,
    its format never changes, it is recording only while it holds its
    context and processor, and its capture buffer is empty whenever it
    is not recording. *)
Theorem reachable_recorder (options : AudioRecorderOptions) (ops : list Op) :
  let this := perform_all ops (new_AudioRecorder options) in
  sampleRate this = or_default (options_sampleRate options) 44100
  /\ channelCount this = or_default (options_channelCount options) 2
  /\ bitDepth this = or_default (options_bitDepth options) 16
  /\ (isRecording this = true -> initialized this = true)
  /\ (isRecording this = false -> audioBuffer this = []).
Proof.
  destruct (perform_all_invariant ops (new_AudioRecorder options))
    as ([Hi Hb] & H1 & H2 & H3); [by split|].
  cbv zeta. by rewrite H1, H2, H3.
Qed.

Lemma reachable_recorder_witness :
  isRecording (perform_all [op_initialize granting_platform; op_startRecording]
                 (new_AudioRecorder default_options)) = true
  /\ initialized (perform_all [op_initialize granting_platform; op_startRecording]
                    (new_AudioRecorder default_options)) = true.
Proof.
  split; [vm_compute; reflexivity|].
  apply (reachable_recorder default_options
           [op_initialize granting_platform; op_startRecording]).
  vm_compute; reflexivity.
Defined.
End Reachable.

(** ** More on the encoder *)

Section EncoderExtras.

Import DataView.




(** X4. The encoded file depends only on the captured samples, the
    sample rate and the channel count: the [bitDepth] option, the flags
    and the held platform objects have no influence, and the
    bits-per-sample field is always 16. *)
Theorem createWAVBlob_ignores_bitDepth (this this' : AudioRecorder) :
  audioBuffer this' = audioBuffer this ->
  sampleRate this' = sampleRate this ->
  channelCount this' = channelCount this ->
  createWAVBlob this' = createWAVBlob this
  /\ exists bytes,
       createWAVBlob this = Ok {| blob_bytes := bytes; blob_type := "audio/wav" |}
       /\ getUint16 bytes 34 = 16.
Proof.
  intros Hb Hr Hc. rewrite !createWAVBlob_bytes, Hb, Hr, Hc.
  split; [done|]. eexists. split; [done|].
  destruct (wav_header_fields (totalSamples_of (audioBuffer this))
              (channelCount this) (sampleRate this)
              (pcm_bytes (concat (audioBuffer this))))
    as (_ & _ & _ & _ & _ & _ & _ & _ & _ & _ & F34 & _).
  by apply getUint16_le_bytes.
Qed.

Lemma createWAVBlob_ignores_bitDepth_witness :
  createWAVBlob (new_AudioRecorder options_24bit) = createWAVBlob fresh_recorder.
Proof.
  apply (createWAVBlob_ignores_bitDepth fresh_recorder
           (new_AudioRecorder options_24bit)); reflexivity.
Defined.
End EncoderExtras.

(** ** Sessions in sequence *)

Section SessionExtras.

Lemma M_bind_assoc {A B C} (m : M A) (f : A -> M B) (g : B -> M C) this :
  ((m ≫= f) ≫= g) this = (m ≫= fun a => f a ≫= g) this.
Proof.
  unfold mbind, M_bind.
  destruct (m this) as [[a|e] this1 c1]; [|done].
  destruct (f a this1) as [[b|e] this2 c2]; [|done].
  destruct (g b this2) as [r this3 c3]. by rewrite app_assoc.
Qed.

(** One recording, from start to stop, on an initialized recorder. *)
Lemma session_outcome this es :
  initialized this = true ->
  (startRecording;; run es;; stopRecording) this
  = Outcome
      (Ok {| blob_bytes :=
               wav_header
                 (totalSamples_of (map interleave (delivered_unpaused false es)))
                 (channelCount this) (sampleRate this)
               ++ pcm_bytes (concat (map interleave (delivered_unpaused false es)));
             blob_type := "audio/wav" |})
      (set_audioBuffer [] (set_isPaused false (set_isRecording false this)))
      [].
Proof.
  intros Hinit. unfold mbind, M_bind.
  rewrite startRecording_eq, Hinit.
  rewrite run_recording by (by destruct this).
  rewrite stopRecording_eq.
  by destruct this.
Qed.

Lemma session_then {A} (k : M A) this es :
  initialized this = true ->
  (startRecording;; run es;; stopRecording;; k) this
  = k (set_audioBuffer [] (set_isPaused false (set_isRecording false this))).
Proof.
  intros Hinit.
  transitivity (((startRecording;; run es;; stopRecording) ≫= fun _ => k) this).
  - unfold mbind, M_bind.
    destruct (startRecording this) as [[[]|e] this1 c1]; [|done].
    destruct (run es this1) as [[[]|e] this2 c2]; [|done].
    destruct (stopRecording this2) as [[b|e] this3 c3]; [|done].
    destruct (k this3) as [r this4 c4]. by rewrite !app_assoc.
  - unfold mbind at 1, M_bind at 1. rewrite session_outcome by done.
    by destruct (k _).
Qed.

Lemma started_then {A} (k : M A) this es :
  initialized this = true ->
  returned ((startRecording;; run es;; k) this)
  = returned
      (k (set_isPaused (paused_after false es)
            (set_audioBuffer (map interleave (delivered_unpaused false es))
               (set_isPaused false (set_isRecording true (set_audioBuffer [] this)))))).
Proof.
  intros Hinit. unfold mbind, M_bind.
  rewrite startRecording_eq, Hinit.
  rewrite run_recording by (by destruct this).
  cbn [isPaused set_isPaused audioBuffer set_isRecording set_audioBuffer app].
  by destruct (k _).
Qed.

(** X5. Recordings made one after the other on the same recorder do
    not influence each other: what the second [stopRecording] returns
    holds exactly the blocks captured since the last [startRecording],
    whether the first recording was stopped or was abandoned by starting
    again. *)
Theorem recordings_are_independent (this : AudioRecorder) (es1 es2 : list Event) :
  initialized this = true ->
  returned ((startRecording;; run es1;; stopRecording;;
             startRecording;; run es2;; stopRecording) this)
  = returned ((startRecording;; run es2;; stopRecording) this)
  /\ returned ((startRecording;; run es1;;
                startRecording;; run es2;; stopRecording) this)
     = returned ((startRecording;; run es2;; stopRecording) this)
  /\ exists blob,
       returned ((startRecording;; run es2;; stopRecording) this) = Ok blob
       /\ drop 44 (blob_bytes blob)
          = pcm_bytes (concat (map interleave (delivered_unpaused false es2))).
Proof.
  intros Hinit. split_and!.
  - rewrite session_then by done.
    rewrite !session_outcome; [done | done |].
    unfold initialized in *. by destruct this.
  - rewrite started_then by done.
    rewrite !session_outcome; [done | done |].
    unfold initialized in *. by destruct this.
  - rewrite session_outcome by done. eexists. split; [done|].
    apply wav_header_fields.
Qed.

Lemma recordings_are_independent_witness :
  returned ((startRecording;; run [Deliver stereo_block];; stopRecording;;
             startRecording;; run [];; stopRecording)
              (this_after (initialize granting_platform fresh_recorder)))
  = returned ((startRecording;; run [];; stopRecording)
                (this_after (initialize granting_platform fresh_recorder))).
Proof.
  apply (recordings_are_independent
           (this_after (initialize granting_platform fresh_recorder))
           [Deliver stereo_block] []).
  vm_compute; reflexivity.
Defined.

(** X6. A recording can be stopped once: after a successful
    [stopRecording], a second one throws the not-recording error and
    returns nothing. *)
Theorem second_stop_fails (this : AudioRecorder) (es : list Event) :
  initialized this = true ->
  (startRecording;; run es;; stopRecording;; stopRecording) this
  = Outcome (Throw "No recording in progress")
      (set_audioBuffer [] (set_isPaused false (set_isRecording false this))) [].
Proof.
  intros Hinit. rewrite session_then by done.
  by rewrite stopRecording_eq.
Qed.

Lemma second_stop_fails_witness :
  returned ((startRecording;; run [Deliver stereo_block];; stopRecording;;
             stopRecording)
              (this_after (initialize granting_platform fresh_recorder)))
  = Throw "No recording in progress".
Proof.
  rewrite (second_stop_fails
             (this_after (initialize granting_platform fresh_recorder))
             [Deliver stereo_block]); [reflexivity|].
  vm_compute; reflexivity.
Defined.

(** X7. On a recorder that holds no processor, [initialize] leaves the
    recorder initialized exactly when it returns normally; and when the
    microphone request itself is refused, it changes nothing at all and
    throws the wrapped error. *)
Theorem initialize_outcome (P : Platform) (this : AudioRecorder) :
  processorNode this = None ->
  (initialized (this_after (initialize P this)) = true
   <-> returned (initialize P this) = Ok tt)
  /\ (forall e,
        getUserMedia P (requested_constraints this) = Throw e ->
        initialize P this
        = Outcome
            (Throw (String.append "Failed to initialize audio recorder: " e))
            this []).
Proof.
  intros Hp.
  unfold requested_constraints, initialized, initialize, try_catch, mbind, M_bind,
    get_this, modify, call, lift, throw.
  destruct (getUserMedia P _) as [stream|e1]; cbn.
  2: { rewrite Hp. rewrite andb_false_r. split; [done|]. by intros e [= ->]. }
  split; [|done].
  destruct (new_AudioContext P _) as [context|e2]; cbn.
  2: { rewrite Hp, andb_false_r. done. }
  destruct (createMediaStreamSource P _ _) as [source|e3]; cbn.
  2: { rewrite Hp. done. }
  destruct (createScriptProcessor P _ _ _ _) as [processor|e4]; cbn.
  2: { rewrite Hp. done. }
  done.
Qed.

Lemma initialize_outcome_witness :
  initialized (this_after (initialize granting_platform fresh_recorder)) = true.
Proof.
  apply (initialize_outcome granting_platform fresh_recorder).
  - reflexivity.
  - vm_compute; reflexivity.
Defined.

(** X8. After [cleanup] the recorder is as good as new: starting
    throws the not-initialized error, stopping throws the not-recording
    error, and a granted [initialize] makes it ready to record again. *)
Theorem cleanup_then_use (this : AudioRecorder) :
  returned ((cleanup;; startRecording) this) = Throw "Audio recorder not initialized"
  /\ returned ((cleanup;; stopRecording) this) = Throw "No recording in progress"
  /\ (forall P stream context source processor,
        getUserMedia P (requested_constraints this) = Ok stream ->
        new_AudioContext P (sampleRate this) = Ok context ->
        createMediaStreamSource P context stream = Ok source ->
        createScriptProcessor P context 4096 (channelCount this) (channelCount this)
          = Ok processor ->
        returned ((cleanup;; initialize P;; startRecording) this) = Ok tt
        /\ phase (this_after ((cleanup;; initialize P;; startRecording) this))
           = Recording).
Proof.
  split_and!.
  - unfold mbind, M_bind. rewrite cleanup_eq, startRecording_eq. done.
  - unfold mbind, M_bind. rewrite cleanup_eq, stopRecording_eq. done.
  - intros P stream context source processor H1 H2 H3 H4.
    unfold mbind, M_bind. rewrite cleanup_eq.
    rewrite (initialize_granted P _ stream context source processor);
      [|done..].
    rewrite startRecording_eq. done.
Qed.

Lemma cleanup_then_use_witness :
  returned ((cleanup;; initialize granting_platform;; startRecording)
              recording_session) = Ok tt.
Proof.
  destruct (cleanup_then_use recording_session) as (_ & _ & H).
  apply (H granting_platform
           {| getTracks := [ {| settings_sampleRate := 48000;
                                settings_channelCount := 2 |} ] |}
           {| context_sampleRate := 44100 |}
           {| source_mediaStream :=
                {| getTracks := [ {| settings_sampleRate := 48000;
                                     settings_channelCount := 2 |} ] |} |}
           {| bufferSize := 4096; numberOfInputChannels := 2;
              numberOfOutputChannels := 2 |});
    vm_compute; reflexivity.
Defined.
End SessionExtras.

(** ** The recorder component: display, mirrored state and file names *)

Section FormatTime.

Import Component.

Lemma parse_decimal_toString (n : nat) : parse_decimal (toString n) = Some n.
Proof.
  unfold parse_decimal, toString. rewrite NilEmpty.usu. cbn [option_map].
  by rewrite DecimalNat.Unsigned.of_to.
Qed.

Lemma of_uint_D0 (d : Decimal.uint) : Nat.of_uint (Decimal.D0 d) = Nat.of_uint d.
Proof. reflexivity. Qed.

Lemma parse_decimal_zero (s : string) :
  parse_decimal (String "0" s) = parse_decimal s.
Proof.
  unfold parse_decimal. cbn [NilEmpty.uint_of_string].
  destruct (NilEmpty.uint_of_string s) as [d|]; [|done].
  reflexivity.
Qed.

(** Padding with zeros changes neither the number read nor a string of
    two characters or more, and gives at least two characters. *)
Lemma padStart_zero (s : string) :
  parse_decimal (padStart 2 "0" s) = parse_decimal s
  /\ (String.length (padStart 2 "0" s) = Nat.max 2 (String.length s))%nat.
Proof.
  unfold padStart.
  destruct s as [|c1 [|c2 s]]; cbn -[parse_decimal Nat.max].
  - by rewrite !parse_decimal_zero.
  - by rewrite parse_decimal_zero.
  - split; [done|]. cbn. lia.
Qed.

Lemma toString_small (k : nat) :
  (k < 60)%nat -> (1 <= String.length (toString k) <= 2)%nat.
Proof.
  intros Hk.
  assert (forallb (fun k => (1 <=? String.length (toString k))%nat
                            && (String.length (toString k) <=? 2)%nat)
            (seq 0 60) = true) as Hall by (vm_compute; reflexivity).
  rewrite forallb_forall in Hall.
  assert (In k (seq 0 60)) as Hin by (apply in_seq; lia).
  apply Hall in Hin. apply andb_true_iff in Hin as [H1 H2].
  apply Nat.leb_le in H1, H2. lia.
Qed.

(** X12. The displayed time can be read back: [formatTime] writes the
    minutes, a colon and the seconds, the seconds always on two digits
    and the minutes on at least two, and the two numbers read from it
    give the elapsed seconds again. *)
Theorem formatTime_round_trip (seconds : nat) :
  exists mm ss,
    formatTime seconds = String.append mm (String.append ":" ss)
    /\ (2 <= String.length mm)%nat
    /\ String.length ss = 2%nat
    /\ parse_decimal mm = Some (seconds / 60)%nat
    /\ parse_decimal ss = Some (seconds mod 60)%nat
    /\ (seconds = 60 * (seconds / 60) + seconds mod 60)%nat.
Proof.
  exists (padStart 2 "0" (toString (seconds / 60))),
         (padStart 2 "0" (toString (seconds mod 60))).
  destruct (padStart_zero (toString (seconds / 60))) as [Pm Lm].
  destruct (padStart_zero (toString (seconds mod 60))) as [Ps Ls].
  assert (seconds mod 60 < 60)%nat as Hs by (apply Nat.mod_upper_bound; lia).
  pose proof (toString_small _ Hs).
  split_and!.
  - reflexivity.
  - lia.
  - lia.
  - by rewrite Pm, parse_decimal_toString.
  - by rewrite Ps, parse_decimal_toString.
  - apply Nat.div_mod. lia.
Qed.
End FormatTime.

Section ComponentSession.

Lemma initialize_ok_initialized P this :
  returned (initialize P this) = Ok tt ->
  initialized (this_after (initialize P this)) = true.
Proof.
  unfold initialized, initialize, try_catch, mbind, M_bind, get_this, modify, call,
    lift, throw.
  destruct (getUserMedia P _) as [stream|e1]; cbn; [|done].
  destruct (new_AudioContext P _) as [context|e2]; cbn; [|done].
  destruct (createMediaStreamSource P _ _) as [source|e3]; cbn; [|done].
  destruct (createScriptProcessor P _ _ _ _) as [processor|e4]; cbn; done.
Qed.

Lemma mount_mirrors P : Component.mirrors (Component.mount P Component.initial).
Proof.
  unfold Component.mirrors, Component.mount.
  set (r0 := new_AudioRecorder _).
  pose proof (initialize_ok_initialized P r0) as Hi.
  destruct (initialize_frame P r0) as (_ & _ & _ & _ & Hr & Hp & _).
  destruct (initialize P r0) as [[[]|message] r' cs];
    cbn [returned this_after] in *; cbn.
  - by rewrite Hr, Hp, Hi.
  - done.
Qed.

Lemma act_mirrors a st : Component.mirrors st -> Component.mirrors (Component.act a st).
Proof.
  unfold Component.mirrors.
  destruct st as [rec pau time ini err audio [r|]];
    cbn [Component.audioRecorderRef Component.isInitialized Component.isRecording
         Component.isPaused].
  - intros (-> & Hi & -> & ->).
    destruct a as [|seen|iso| | | |b]; cbn.
    + unfold Component.startRecording; cbn. rewrite startRecording_eq, Hi. cbn.
      split_and!; first [done | by destruct r].
    + unfold Component.pauseRecording; cbn. by destruct seen; cbn.
    + unfold Component.stopRecording; cbn. rewrite stopRecording_eq.
      destruct (isRecording r) eqn:Hr; cbn; split_and!; first [done | by destruct r].
    + unfold Component.handleUploadAndTranscribe; cbn. by destruct audio; cbn.
    + done.
    + unfold Component.tick; cbn.
      by destruct (isRecording r && negb (isPaused r)); cbn.
    + unfold Component.deliver; cbn. rewrite onaudioprocess_eq.
      destruct (isRecording r && negb (isPaused r)); cbn; split_and!; first [done | by destruct r].
  - intros (-> & -> & ->).
    destruct a as [|seen|iso| | | |b]; cbn; try done.
    unfold Component.handleUploadAndTranscribe; cbn. by destruct audio; cbn.
Qed.

Lemma act_all_mirrors actions st :
  Component.mirrors st -> Component.mirrors (Component.act_all actions st).
Proof.
  revert st. induction actions as [|a actions IH]; intros st H; [done|].
  cbn. apply IH. by apply act_mirrors.
Qed.


(** X13. Whatever is done to a mounted component, it agrees with the
    recorder it holds: with a recorder it is initialized, the recorder is
    initialized, and [getRecordingState] of the recorder returns the two
    flags the component displays; without one (the mount failed) it is
    not initialized and displays neither flag. *)
Theorem component_mirrors_recorder (P : Platform) (actions : list Component.Action) :
  let st := Component.act_all actions (Component.mount P Component.initial) in
  match Component.audioRecorderRef st with
  | Some recorder =>
      Component.isInitialized st = true
      /\ initialized recorder = true
      /\ returned (getRecordingState recorder)
         = Ok (Component.isRecording st, Component.isPaused st)
  | None =>
      Component.isInitialized st = false
      /\ Component.isRecording st = false
      /\ Component.isPaused st = false
  end.
Proof.
  pose proof (act_all_mirrors actions _ (mount_mirrors P)) as H.
  unfold Component.mirrors in H. cbv zeta.
  destruct (Component.audioRecorderRef _) as [r|]; [|done].
  destruct H as (Hi & Hr & -> & ->). done.
Qed.


(** X15. The status line tells whether audio is being captured: a block
    that reaches the recorder while the component displays "Recording..."
    is appended, interleaved, to the recorder's buffer, and one that
    arrives while it displays "Paused" or "Ready to record" leaves the
    recorder as it is. *)
Theorem status_matches_capture (P : Platform) (actions : list Component.Action)
    (inputBuffer : AudioBuffer) (recorder : AudioRecorder) :
  let st := Component.act_all actions (Component.mount P Component.initial) in
  Component.audioRecorderRef st = Some recorder ->
  exists recorder',
    Component.audioRecorderRef (Component.act (Component.audio_block inputBuffer) st)
    = Some recorder'
    /\ (Component.getRecordingStatus st = "Recording..."%string ->
        recorder' = set_audioBuffer (audioBuffer recorder ++ [interleave inputBuffer])
                      recorder)
    /\ (Component.getRecordingStatus st = "Paused"%string
        \/ Component.getRecordingStatus st = "Ready to record"%string ->
        recorder' = recorder).
Proof.
  pose proof (act_all_mirrors actions _ (mount_mirrors P)) as H.
  cbv zeta. intros Hr. unfold Component.mirrors in H. rewrite Hr in H.
  destruct H as (_ & _ & Hrec & Hpau).
  cbn [Component.act]. unfold Component.deliver. rewrite Hr.
  eexists; split; [reflexivity|]. cbn [Component.audioRecorderRef].
  rewrite onaudioprocess_eq. unfold Component.getRecordingStatus.
  rewrite Hrec, Hpau.
  destruct (Component.recordedAudio _); [by split; [|intros []]|].
  destruct (isRecording recorder), (isPaused recorder); cbn;
    (split; [|intros []]); done.
Qed.

Lemma status_matches_capture_witness :
  exists recorder',
    Component.audioRecorderRef
      (Component.act_all [Component.click_start; Component.audio_block stereo_block]
         (Component.mount granting_platform Component.initial))
    = Some recorder'
    /\ audioBuffer recorder' = [interleave stereo_block].
Proof.
  pose (recorder :=
          this_after
            ((initialize granting_platform;; startRecording)
               (new_AudioRecorder {| options_sampleRate := Some 44100;
                                     options_channelCount := Some 2;
                                     options_bitDepth := Some 16 |}))).
  destruct (status_matches_capture granting_platform [Component.click_start]
              stereo_block recorder) as (recorder' & E & Hrec & _);
    [vm_compute; reflexivity|].
  exists recorder'. split; [exact E|].
  rewrite Hrec; vm_compute; reflexivity.
Defined.

End ComponentSession.

Section FileName.

Lemma replace_colon_dot_length (s : string) :
  String.length (Component.replace_colon_dot s) = String.length s.
Proof. induction s as [|c s IH]; cbn; [done | by rewrite IH]. Qed.

Lemma get_stem_wav (iso : string) (i : nat) (c : ascii) :
  String.get i (String.append (Component.replace_colon_dot iso) ".wav") = Some c ->
  c <> ":"%char /\ (c = "."%char -> i = String.length iso).
Proof.
  revert i. induction iso as [|c0 iso IH]; intros i H.
  - cbn in H.
    do 4 (destruct i as [|i]; [injection H as <-; by split|]).
    done.
  - cbn in H. destruct i as [|i].
    + injection H as <-.
      destruct (Ascii.eqb c0 ":") eqn:E1; [by split|].
      destruct (Ascii.eqb c0 ".") eqn:E2; [by split|].
      apply Ascii.eqb_neq in E1, E2. cbn. by split.
    + destruct (IH i H) as [H1 H2]. split; [done|].
      intros Hc. cbn. by rewrite (H2 Hc).
Qed.

(** X16. The file name given to a recording has the length of the
    timestamp plus fourteen, contains no colon, and its only dot is the
    one of the [.wav] extension. *)
Theorem filename_at_safe (iso : string) (i : nat) (c : ascii) :
  String.get i (Component.filename_at iso) = Some c ->
  String.length (Component.filename_at iso) = (14 + String.length iso)%nat
  /\ c <> ":"%char
  /\ (c = "."%char -> i = (10 + String.length iso)%nat).
Proof.
  intros H. split.
  - unfold Component.filename_at. cbn.
    do 10 f_equal.
    generalize (replace_colon_dot_length iso).
    generalize (Component.replace_colon_dot iso). intros s <-.
    induction s as [|c1 s IH]; cbn; [done | by rewrite IH].
  - unfold Component.filename_at in H. cbn in H.
    do 10 (destruct i as [|i]; [injection H as <-; by split|]).
    destruct (get_stem_wav iso i c H) as [H1 H2]. split; [done|].
    intros Hc. cbn. by rewrite (H2 Hc).
Qed.

Lemma filename_at_safe_witness :
  String.get 34 (Component.filename_at "2025-01-02T03:04:05.678Z") = Some "."%char
  /\ String.length (Component.filename_at "2025-01-02T03:04:05.678Z") = 38%nat.
Proof.
  split; [vm_compute; reflexivity|].
  apply (filename_at_safe "2025-01-02T03:04:05.678Z" 34 ".").
  vm_compute; reflexivity.
Defined.

End FileName.

(** ** More on the conversion of samples *)

Section SampleExtras.

Import Number.

Lemma compare_normalized_negative (m1 m2 : positive) (e1 e2 : Z) :
  Z.pos (digits2_pos m1) <= 53 ->
  Z.pos (digits2_pos m2) <= 53 ->
  SFcompare (normalized true m2 e2) (normalized true m1 e1)
  = Some (dyadic_compare m1 e1 m2 e2).
Proof.
  intros H1 H2.
  unfold normalized at 1 2. rewrite compare_negative.
  fold (normalized false m1 e1). fold (normalized false m2 e2).
  rewrite compare_normalized by done.
  cbn [option_map]. by rewrite dyadic_compare_antisym, CompOpp_involutive.
Qed.

(** Being within [-1, 1], for a finite binary32 sample. *)
Lemma within_unit (s : bool) (m : positive) (e : Z) :
  Float32.is_float32 (S754_finite s m e) = true ->
  (le (of_Z (-1)) (Float32.to_number (S754_finite s m e)) = true
   /\ le (Float32.to_number (S754_finite s m e)) (of_Z 1) = true)
  <-> dyadic_compare 1 0 m e <> Lt.
Proof.
  intros Hx. destruct (to_number_normalized s m e Hx) as (-> & Hd & He).
  rewrite of_Z_one_normalized, of_Z_minus_one_normalized.
  unfold le, SFleb. destruct s.
  - rewrite compare_normalized_negative by (lia || (vm_compute; discriminate)).
    assert (SFcompare (normalized true m e) (normalized false 1 0) = Some Lt) as ->
      by reflexivity.
    rewrite (dyadic_compare_antisym 1 0 m e).
    destruct (dyadic_compare 1 0 m e); cbn [CompOpp]; intuition congruence.
  - rewrite compare_normalized by (lia || (vm_compute; discriminate)).
    assert (SFcompare (normalized true 1 0) (normalized false m e) = Some Lt) as ->
      by reflexivity.
    rewrite (dyadic_compare_antisym 1 0 m e).
    destruct (dyadic_compare 1 0 m e); cbn [CompOpp]; intuition congruence.
Qed.

(** X9. For a finite binary32 sample [±m·2^e] within [-1, 1], the
    stored 16-bit value is the exact product of the sample with its
    scale (32768 below zero, 32767 otherwise) rounded toward zero: it has
    the sign of the sample and is less than one unit away from the
    product. *)
Theorem quantisation_error (s : bool) (m : positive) (e : Z) :
  Float32.is_float32 (S754_finite s m e) = true ->
  le (of_Z (-1)) (Float32.to_number (S754_finite s m e)) = true ->
  le (Float32.to_number (S754_finite s m e)) (of_Z 1) = true ->
  exists a,
    int16_of (S754_finite s m e) = cond_Zopp s a
    /\ 0 <= a <= Z.pos (scale s)
    /\ e <= 0
    /\ a * 2 ^ (- e) <= Z.pos m * Z.pos (scale s) < (a + 1) * 2 ^ (- e).
Proof.
  intros Hx Hlo Hhi.
  assert (dyadic_compare 1 0 m e <> Lt) as Hc
    by (apply (within_unit s m e Hx); by split).
  destruct (unclamped_sample s m e Hx Hc) as (Hv & Htr & H16 & _).
  destruct (dyadic_not_above_one m e Hc) as [He0 Hm].
  pose proof (shiftl_scaled_range s m e He0 Hm) as Ht.
  exists (Z.shiftl (Z.pos (m * scale s)) e).
  unfold int16_of. rewrite Hv, H16, Htr.
  split; [done|]. split; [done|]. split; [done|].
  rewrite Z.shiftl_div_pow2 by done. rewrite Pos2Z.inj_mul.
  assert (0 < 2 ^ (- e)) as Hp by (apply Z.pow_pos_nonneg; lia).
  pose proof (Z.div_mod (Z.pos m * Z.pos (scale s)) (2 ^ (- e))) as Hdm.
  pose proof (Z.mod_pos_bound (Z.pos m * Z.pos (scale s)) (2 ^ (- e)) Hp).
  nia.
Qed.

Lemma quantisation_error_witness :
  exists a,
    int16_of f32_minus_half = cond_Zopp true a
    /\ 0 <= a <= 32768
    /\ -24 <= 0
    /\ a * 2 ^ 24 <= 8388608 * 32768 < (a + 1) * 2 ^ 24.
Proof.
  apply (quantisation_error true 8388608 (-24)); vm_compute; reflexivity.
Defined.

(** The magnitude of an unclamped finite sample reaches the scale only
    at magnitude one. *)
Lemma unclamped_magnitude (s : bool) (m : positive) (e : Z) :
  Float32.is_float32 (S754_finite s m e) = true ->
  dyadic_compare 1 0 m e <> Lt ->
  exists a,
    int16_of (S754_finite s m e) = cond_Zopp s a
    /\ 0 <= a <= Z.pos (scale s)
    /\ (a = Z.pos (scale s) <-> dyadic_compare 1 0 m e = Eq).
Proof.
  intros Hx Hc.
  destruct (unclamped_sample s m e Hx Hc) as (Hv & Htr & H16 & _).
  destruct (dyadic_not_above_one m e Hc) as [He0 Hm].
  pose proof (shiftl_scaled_range s m e He0 Hm) as Ht.
  exists (Z.shiftl (Z.pos (m * scale s)) e).
  unfold int16_of. rewrite Hv, H16, Htr.
  split; [done|]. split; [done|].
  rewrite Z.shiftl_div_pow2, Pos2Z.inj_mul by done.
  assert (0 < 2 ^ (- e)) as Hp by (apply Z.pow_pos_nonneg; lia).
  unfold dyadic_compare.
  replace (Z.min 0 e) with e by lia.
  replace (e - e) with 0 by lia. replace (0 - e) with (- e) by lia.
  rewrite Z.pow_0_r, Z.compare_eq_iff.
  split.
  - intros Ha.
    destruct (Z_lt_le_dec (Z.pos m) (2 ^ (- e))) as [Hlt|Hge]; [|lia].
    assert (Z.pos m * Z.pos (scale s) / 2 ^ (- e) < Z.pos (scale s)); [|lia].
    apply Z.div_lt_upper_bound; [done|]. nia.
  - intros Heq. replace (Z.pos m) with (2 ^ (- e)) by lia.
    rewrite Z.mul_comm. apply Z.div_mul. lia.
Qed.

(** X10. Full scale is reached only by clipping or at magnitude one:
    a binary32 sample is stored as 32767 exactly when it is at least 1,
    and as -32768 exactly when it is at most -1. *)
Theorem full_scale_iff (x : Float32.float32) :
  Float32.is_float32 x = true ->
  (int16_of x = 32767 <-> le (of_Z 1) (Float32.to_number x) = true)
  /\ (int16_of x = - 32768 <-> le (Float32.to_number x) (of_Z (-1)) = true).
Proof.
  intros Hx. destruct x as [s|s| |s m e].
  - destruct s; vm_compute; repeat split; intros H; discriminate H.
  - destruct s; vm_compute; repeat split; intros H;
      first [reflexivity | discriminate H].
  - vm_compute; repeat split; intros H; discriminate H.
  - destruct (to_number_normalized s m e Hx) as (Hy & Hd & He). rewrite Hy.
    rewrite of_Z_one_normalized, of_Z_minus_one_normalized.
    unfold le, SFleb.
    assert (SFcompare (normalized false 1 0) (normalized s m e)
            = Some (if s then Gt else dyadic_compare 1 0 m e)) as ->.
    { destruct s; [reflexivity|].
      by rewrite compare_normalized by (lia || (vm_compute; discriminate)). }
    assert (SFcompare (normalized s m e) (normalized true 1 0)
            = Some (if s then dyadic_compare 1 0 m e else Gt)) as ->.
    { destruct s; [|reflexivity].
      by rewrite compare_normalized_negative
        by (lia || (vm_compute; discriminate)). }
    destruct (dyadic_compare 1 0 m e) eqn:Hc.
    + destruct (unclamped_magnitude s m e Hx) as (a & -> & Ha & Hfull);
        [congruence|].
      rewrite Hc in Hfull. assert (a = Z.pos (scale s)) as -> by tauto.
      destruct s; cbn [cond_Zopp scale]; split; split; first [done | lia].
    + unfold int16_of. rewrite pcmSample_of_finite, Hc by done.
      destruct s; vm_compute; repeat split; intros H;
        first [reflexivity | discriminate H].
    + destruct (unclamped_magnitude s m e Hx) as (a & -> & Ha & Hfull);
        [congruence|].
      rewrite Hc in Hfull. assert (a <> Z.pos (scale s)) as Hne
        by (intros Heq; apply Hfull in Heq; discriminate Heq).
      destruct s; cbn [cond_Zopp scale] in *; split; split;
        first [discriminate | lia].
Qed.

Lemma full_scale_iff_witness :
  int16_of f32_one_and_half = 32767.
Proof.
  apply (full_scale_iff f32_one_and_half); vm_compute; reflexivity.
Defined.
End SampleExtras.

(** ** The size of a recording *)

Section SizeExtras.

Lemma interleave_length (b : AudioBuffer) : length (interleave b) = block_samples b.
Proof.
  unfold interleave, block_samples.
  by rewrite interleave_from_length, length_replicate.
Qed.

Lemma concat_interleave_length (bs : list AudioBuffer) :
  length (concat (map interleave bs)) = sum_list (map block_samples bs).
Proof.
  induction bs as [|b bs IH]; [done|].
  cbn [map concat sum_list fold_right]. rewrite length_app, interleave_length.
  by rewrite IH.
Qed.

(** X11. The size of a finished recording is fixed by the blocks
    delivered while it was not paused: 44 bytes of header and two bytes
    for every sample of every channel of those blocks. *)
Theorem recording_size (this : AudioRecorder) (es : list Event) :
  initialized this = true ->
  exists blob,
    returned ((startRecording;; run es;; stopRecording) this) = Ok blob
    /\ length (blob_bytes blob)
       = (44 + 2 * sum_list (map block_samples (delivered_unpaused false es)))%nat.
Proof.
  intros Hinit. rewrite session_outcome by done.
  eexists. split; [done|]. cbn [blob_bytes].
  by rewrite length_app, wav_header_length, pcm_bytes_length,
    concat_interleave_length.
Qed.

Lemma recording_size_witness :
  exists blob,
    returned ((startRecording;;
               run [Deliver stereo_block; Pause; Deliver stereo_block];;
               stopRecording)
                (this_after (initialize granting_platform fresh_recorder)))
    = Ok blob
    /\ length (blob_bytes blob) = 52%nat.
Proof.
  apply (recording_size (this_after (initialize granting_platform fresh_recorder))
           [Deliver stereo_block; Pause; Deliver stereo_block]).
  vm_compute; reflexivity.
Defined.
End SizeExtras.

(** ** The WAV encoder *)

Section Encoder.

Import DataView.

(** C1. For a capture buffer of [N * C] interleaved samples, channel
    count [C] and sample rate [R] (each value fitting the header field
    that holds it), [createWAVBlob] returns [44 + N*C*2] bytes: "RIFF",
    the uint32 [36 + N*C*2], "WAVE", "fmt ", the uint32 16, the uint16
    values 1 and [C], the uint32 values [R] and [R*C*2], the uint16
    values [C*2] and 16, "data", the uint32 [N*C*2], then the 16-bit
    little-endian samples in the order of the chunks. *)
Theorem createWAVBlob_layout (this : AudioRecorder) (N C R : Z) :
  channelCount this = C ->
  sampleRate this = R ->
  totalSamples_of (audioBuffer this) = N * C ->
  0 <= C -> C * 2 < 2 ^ 16 ->
  0 <= R < 2 ^ 32 -> R * C * 2 < 2 ^ 32 ->
  36 + N * C * 2 < 2 ^ 32 ->
  exists bytes,
    createWAVBlob this = Ok {| blob_bytes := bytes; blob_type := "audio/wav" |}
    /\ length bytes = Z.to_nat (44 + N * C * 2)
    /\ slice bytes 0 4 = charCodes "RIFF"
    /\ getUint32 bytes 4 = 36 + N * C * 2
    /\ slice bytes 8 4 = charCodes "WAVE"
    /\ slice bytes 12 4 = charCodes "fmt "
    /\ getUint32 bytes 16 = 16
    /\ getUint16 bytes 20 = 1
    /\ getUint16 bytes 22 = C
    /\ getUint32 bytes 24 = R
    /\ getUint32 bytes 28 = R * C * 2
    /\ getUint16 bytes 32 = C * 2
    /\ getUint16 bytes 34 = 16
    /\ slice bytes 36 4 = charCodes "data"
    /\ getUint32 bytes 40 = N * C * 2
    /\ drop 44 bytes = pcm_bytes (concat (audioBuffer this))
    /\ (forall i x, concat (audioBuffer this) !! i = Some x ->
          getInt16 bytes (44 + 2 * i) = int16_of x).
Proof.
  intros HC HR Htotal HC0 HC16 HR32 Hrate Hsize.
  pose proof (totalSamples_of_concat (audioBuffer this)) as Hlen.
  assert (0 <= N * C) as HN by lia.
  eexists. split; [apply createWAVBlob_bytes|].
  rewrite HC, HR, Htotal.
  destruct (wav_header_fields (N * C) C R (pcm_bytes (concat (audioBuffer this))))
    as (F0 & F4 & F8 & F12 & F16 & F20 & F22 & F24 & F28 & F32 & F34 & F36 & F40 & Fdata).
  split.
  { rewrite length_app, wav_header_length, pcm_bytes_length. lia. }
  repeat split; try assumption;
    try (apply getUint32_le_bytes; [assumption | first [lia | nia]]);
    try (apply getUint16_le_bytes; [assumption | lia]).
  - intros i x Hx.
    rewrite <- (app_nil_r (pcm_bytes _)).
    rewrite <- (wav_header_length (N * C) C R).
    by apply getInt16_pcm_bytes.
Qed.

Lemma createWAVBlob_layout_witness :
  exists bytes,
    createWAVBlob recording_session
    = Ok {| blob_bytes := bytes; blob_type := "audio/wav" |}
    /\ length bytes = 52%nat
    /\ getUint32 bytes 24 = 44100
    /\ getUint32 bytes 40 = 8.
Proof.
  assert (channelCount recording_session = 2) as HC by (vm_compute; reflexivity).
  assert (sampleRate recording_session = 44100) as HR by (vm_compute; reflexivity).
  assert (totalSamples_of (audioBuffer recording_session) = 2 * 2) as HN
    by (vm_compute; reflexivity).
  destruct (createWAVBlob_layout recording_session 2 2 44100 HC HR HN)
    as (bytes & H & Hlen & _ & _ & _ & _ & _ & _ & _ & HR' & _ & _ & _ & _ & Hd & _);
    [lia | lia | lia | lia | lia |].
  exists bytes. repeat split; assumption.
Defined.

(** C6. An empty capture buffer is encoded without error: stopping an
    initialized recorder right after starting it returns a WAV of
    exactly 44 bytes whose data size field is 0, for every sample rate
    and channel count. *)
Theorem empty_recording_is_valid_wav (this : AudioRecorder) :
  initialized this = true ->
  exists blob,
    returned ((startRecording;; stopRecording) this) = Ok blob
    /\ blob_type blob = "audio/wav"%string
    /\ blob_bytes blob = wav_header 0 (channelCount this) (sampleRate this)
    /\ length (blob_bytes blob) = 44%nat
    /\ slice (blob_bytes blob) 0 4 = charCodes "RIFF"
    /\ getUint32 (blob_bytes blob) 4 = 36
    /\ slice (blob_bytes blob) 8 4 = charCodes "WAVE"
    /\ slice (blob_bytes blob) 12 4 = charCodes "fmt "
    /\ getUint32 (blob_bytes blob) 16 = 16
    /\ getUint16 (blob_bytes blob) 20 = 1
    /\ getUint16 (blob_bytes blob) 34 = 16
    /\ slice (blob_bytes blob) 36 4 = charCodes "data"
    /\ getUint32 (blob_bytes blob) 40 = 0.
Proof.
  intros Hinit.
  unfold mbind, M_bind. rewrite startRecording_eq, Hinit, stopRecording_eq.
  cbn [isRecording set_isPaused set_isRecording set_audioBuffer audioBuffer
       returned sampleRate channelCount concat].
  eexists. split; [reflexivity|]. cbn [blob_type blob_bytes].
  change (totalSamples_of []) with 0. change (pcm_bytes []) with (@nil Z).
  destruct (wav_header_fields 0 (channelCount this) (sampleRate this) [])
    as (F0 & F4 & F8 & F12 & F16 & F20 & _ & _ & _ & _ & F34 & F36 & F40 & _).
  rewrite app_nil_r in *.
  split; [done|]. split; [done|]. split; [apply wav_header_length|].
  repeat split; try assumption;
    try (apply getUint32_le_bytes; [assumption | lia]);
    try (apply getUint16_le_bytes; [assumption | lia]).
Qed.

Lemma empty_recording_is_valid_wav_witness :
  exists blob,
    returned ((startRecording;; stopRecording)
                (this_after (initialize granting_platform fresh_recorder)))
    = Ok blob
    /\ length (blob_bytes blob) = 44%nat
    /\ getUint32 (blob_bytes blob) 40 = 0.
Proof.
  destruct (empty_recording_is_valid_wav
              (this_after (initialize granting_platform fresh_recorder)))
    as (blob & H & _ & _ & Hlen & _ & _ & _ & _ & _ & _ & _ & _ & Hd);
    [vm_compute; reflexivity|].
  exists blob. repeat split; assumption.
Defined.

End Encoder.

(** ** The session state machine *)

Section SessionClaims.

Import DataView.

(** C3. A delivered block is appended to the capture buffer exactly
    when the session is recording and not paused.  Over any trace of
    deliveries, pauses and resumes the buffer grows by the blocks
    delivered while not paused, in delivery order; with pause/resume
    cycles, the encoded output holds the samples of the blocks that
    arrived before each pause and after each resume, in order, and none
    of those that arrived during a pause. *)
Theorem capture_only_while_recording :
  (forall this b,
      audioBuffer (this_after (onaudioprocess b this))
      = audioBuffer this ++ [interleave b]
      <-> phase this = Recording)
  /\ (forall this b,
        phase this <> Recording -> this_after (onaudioprocess b this) = this)
  /\ (forall this es,
        phase this = Recording \/ phase this = Paused ->
        audioBuffer (this_after (run es this))
        = audioBuffer this
            ++ map interleave (delivered_unpaused (isPaused this) es))
  /\ (forall this cs last,
        initialized this = true ->
        exists blob,
          returned ((startRecording;; run (cycles cs last);; stopRecording) this)
          = Ok blob
          /\ drop 44 (blob_bytes blob)
             = pcm_bytes (concat (map interleave (flat_map fst cs ++ last)))).
Proof.
  split; [|split; [|split]].
  - intros this b. split.
    + intros H. destruct (phase this) eqn:Hp; try done;
        rewrite onaudioprocess_not_recording in H by congruence;
        cbn [this_after] in H;
        apply (f_equal length) in H; rewrite length_app in H; simpl in H; lia.
    + intros H. rewrite onaudioprocess_recording by done. by destruct this.
  - intros this b H. by rewrite onaudioprocess_not_recording.
  - intros this es H.
    rewrite run_recording.
    + by destruct this.
    + destruct H as [H|H]; [apply phase_Recording in H | apply phase_Paused in H];
        tauto.
  - intros this cs last Hinit.
    unfold mbind, M_bind. rewrite startRecording_eq, Hinit.
    rewrite run_recording by (by destruct this).
    rewrite stopRecording_eq.
    cbn [isRecording isPaused audioBuffer set_isPaused set_isRecording
         set_audioBuffer returned sampleRate channelCount app].
    eexists. split; [reflexivity|].
    cbn [blob_bytes]. rewrite cycles_delivered.
    apply wav_header_fields.
Qed.

Lemma capture_only_while_recording_witness :
  exists blob,
    returned
      ((startRecording;;
        run (cycles [([stereo_block], [stereo_block])] [stereo_block]);;
        stopRecording)
         (this_after (initialize granting_platform fresh_recorder)))
    = Ok blob
    /\ drop 44 (blob_bytes blob)
       = pcm_bytes (concat (map interleave [stereo_block; stereo_block])).
Proof.
  destruct capture_only_while_recording as (_ & _ & _ & H).
  apply (H (this_after (initialize granting_platform fresh_recorder))
           [([stereo_block], [stereo_block])] [stereo_block]).
  vm_compute; reflexivity.
Defined.

(** C4. [stopRecording] succeeds only when the session is recording or
    paused: it returns the WAV built from the capture buffer, leaves
    the buffer empty and the session stopped; in any other state it
    throws the not-recording error and changes nothing. *)
Theorem stopRecording_states (this : AudioRecorder) :
  (phase this = Recording \/ phase this = Paused ->
     exists blob,
       createWAVBlob this = Ok blob
       /\ blob_bytes blob
          = wav_header (totalSamples_of (audioBuffer this)) (channelCount this)
              (sampleRate this)
            ++ pcm_bytes (concat (audioBuffer this))
       /\ stopRecording this
          = Outcome (Ok blob)
              (set_audioBuffer [] (set_isPaused false (set_isRecording false this)))
              []
       /\ audioBuffer (this_after (stopRecording this)) = []
       /\ (initialized this = true ->
             phase (this_after (stopRecording this)) = Idle))
  /\ (phase this = Uninitialized \/ phase this = Idle ->
        stopRecording this = Outcome (Throw "No recording in progress") this []).
Proof.
  split.
  - intros H.
    assert (isRecording this = true) as Hrec.
    { destruct H as [H|H]; [apply phase_Recording in H | apply phase_Paused in H];
        tauto. }
    eexists. split; [apply createWAVBlob_bytes|].
    rewrite stopRecording_eq, Hrec. cbn [blob_bytes this_after].
    repeat split.
    intros Hinit. unfold phase, initialized in *.
    destruct this; cbn in *. by rewrite Hinit.
  - intros H. rewrite stopRecording_eq.
    replace (isRecording this) with false; [done|].
    symmetry. apply phase_not_recording. tauto.
Qed.

Lemma stopRecording_states_witness :
  (phase recording_session = Recording \/ phase recording_session = Paused)
  /\ exists blob,
       createWAVBlob recording_session = Ok blob
       /\ returned (stopRecording recording_session) = Ok blob
       /\ phase (this_after (stopRecording recording_session)) = Idle.
Proof.
  split; [left; vm_compute; reflexivity|].
  destruct (stopRecording_states recording_session) as [H _].
  destruct H as (blob & H1 & _ & H3 & _ & H5); [left; vm_compute; reflexivity|].
  exists blob. split; [exact H1|]. split; [by rewrite H3|].
  apply H5. vm_compute; reflexivity.
Defined.

(** C9. [cleanup] returns normally from every state; it releases each
    platform object the recorder holds, empties the capture buffer and
    leaves the session uninitialized.  A second call makes no platform
    call and changes nothing. *)
Theorem cleanup_idempotent (this : AudioRecorder) :
  returned (cleanup this) = Ok tt
  /\ calls (cleanup this) = release_calls this
  /\ audioContext (this_after (cleanup this)) = None
  /\ mediaStream (this_after (cleanup this)) = None
  /\ sourceNode (this_after (cleanup this)) = None
  /\ processorNode (this_after (cleanup this)) = None
  /\ audioBuffer (this_after (cleanup this)) = []
  /\ phase (this_after (cleanup this)) = Uninitialized
  /\ cleanup (this_after (cleanup this))
     = Outcome (Ok tt) (this_after (cleanup this)) []
  /\ this_after ((cleanup;; cleanup) this) = this_after (cleanup this).
Proof.
  assert (forall r, cleanup (this_after (cleanup r))
                    = Outcome (Ok tt) (this_after (cleanup r)) []) as Hagain.
  { intros r. rewrite (cleanup_eq r). cbn [this_after]. by rewrite cleanup_eq. }
  split_and!; try (by rewrite cleanup_eq).
  - apply Hagain.
  - unfold mbind, M_bind.
    rewrite (outcome_eta (cleanup this)), Hagain.
    by rewrite cleanup_eq.
Qed.


(** C5, as the code has it.  The sample rate in the header is the rate
    the recorder was constructed with: [initialize] passes it to the
    platform and reads no rate back, so after any session the fields at
    offsets 24 and 28 hold the requested rate and the byte rate
    computed from it. *)
Theorem header_rate_is_requested_rate P (this : AudioRecorder) es blob :
  0 <= sampleRate this < 2 ^ 32 ->
  0 <= sampleRate this * channelCount this * 2 < 2 ^ 32 ->
  returned ((initialize P;; startRecording;; run es;; stopRecording) this) = Ok blob ->
  sampleRate (this_after (initialize P this)) = sampleRate this
  /\ getUint32 (blob_bytes blob) 24 = sampleRate this
  /\ getUint32 (blob_bytes blob) 28 = sampleRate this * channelCount this * 2.
Proof.
  intros HR HB.
  destruct (initialize_frame P this) as (Hsr & Hcc & _ & _ & _ & _ & _).
  split; [done|]. revert H.
  unfold mbind at 1, M_bind at 1.
  destruct (initialize P this) as [[[]|e] this1 c1]; [|done].
  cbn [this_after] in *.
  unfold mbind at 1, M_bind at 1. rewrite startRecording_eq.
  destruct (initialized this1); [|done].
  unfold mbind, M_bind. rewrite run_recording by (by destruct this1).
  rewrite stopRecording_eq.
  cbn [isRecording isPaused audioBuffer set_isPaused set_isRecording
       set_audioBuffer returned sampleRate channelCount app].
  match goal with
  | |- Ok ?b = Ok blob -> _ =>
      intros Hblob; assert (blob = b) as -> by congruence; clear Hblob
  end.
  cbn [blob_bytes]. rewrite Hsr, Hcc.
  match goal with
  | |- context [wav_header ?t ?c ?r ++ ?d] =>
      destruct (wav_header_fields t c r d)
        as (_ & _ & _ & _ & _ & _ & _ & F24 & F28 & _)
  end.
  split; by apply getUint32_le_bytes.
Qed.

Lemma header_rate_is_requested_rate_witness :
  exists blob,
    returned ((initialize granting_platform;; startRecording;;
               run [Deliver stereo_block];; stopRecording) fresh_recorder)
    = Ok blob
    /\ getUint32 (blob_bytes blob) 24 = 44100.
Proof.
  eexists. split; [vm_compute; reflexivity|].
  apply (header_rate_is_requested_rate granting_platform fresh_recorder
           [Deliver stereo_block]);
    [change (0 <= 44100 < 2 ^ 32); lia
    | change (0 <= 44100 * 2 * 2 < 2 ^ 32); lia
    | vm_compute; reflexivity].
Defined.

(** C5, as claimed, fails: the device negotiates 48000 Hz, the caller
    asked for 44100 Hz, and the header says 44100. *)
Lemma header_rate_not_negotiated :
  let o := (initialize granting_platform;; startRecording;;
            run [Deliver stereo_block];; stopRecording) fresh_recorder in
  negotiated_sampleRates (this_after o) = [48000]
  /\ exists blob,
       returned o = Ok blob /\ getUint32 (blob_bytes blob) 24 = 44100.
Proof.
  cbv zeta. split; [vm_compute; reflexivity|].
  eexists. split; vm_compute; reflexivity.
Qed.

(** C7, as the code has it.  [initialize] has no guard on the state of
    the recorder: whenever the platform grants its four requests the
    call succeeds, on an initialized recorder as on a fresh one, and
    replaces the held objects without releasing them; the only error it
    throws is the wrapped error of a platform call. *)
Theorem initialize_has_no_guard P (this : AudioRecorder) stream context source processor :
  getUserMedia P (requested_constraints this) = Ok stream ->
  new_AudioContext P (sampleRate this) = Ok context ->
  createMediaStreamSource P context stream = Ok source ->
  createScriptProcessor P context 4096 (channelCount this) (channelCount this)
    = Ok processor ->
  initialize P this
  = Outcome (Ok tt)
      (set_processorNode (Some processor)
         (set_sourceNode (Some source)
            (set_audioContext (Some context)
               (set_mediaStream (Some stream) this))))
      [source_connect source processor;
       processor_connect_destination processor context]
  /\ (forall P' this' message,
        returned (initialize P' this') = Throw message ->
        exists error,
          message = String.append "Failed to initialize audio recorder: " error).
Proof.
  intros H1 H2 H3 H4. split.
  - by apply initialize_granted.
  - intros P' this' message. apply initialize_frame.
Qed.

Lemma initialize_has_no_guard_witness :
  initialized (this_after (initialize granting_platform fresh_recorder)) = true
  /\ returned
       (initialize granting_platform
          (this_after (initialize granting_platform fresh_recorder)))
     = Ok tt.
Proof.
  split; [vm_compute; reflexivity|].
  destruct (initialize_has_no_guard granting_platform
              (this_after (initialize granting_platform fresh_recorder))
              {| getTracks := [ {| settings_sampleRate := 48000;
                                   settings_channelCount := 2 |} ] |}
              {| context_sampleRate := 44100 |}
              {| source_mediaStream :=
                   {| getTracks := [ {| settings_sampleRate := 48000;
                                        settings_channelCount := 2 |} ] |} |}
              {| bufferSize := 4096; numberOfInputChannels := 2;
                 numberOfOutputChannels := 2 |})
    as [H _]; [vm_compute; reflexivity .. |].
  by rewrite H.
Defined.

(** C7, as claimed, fails: a second [initialize] with no [cleanup] in
    between returns normally. *)
Lemma second_initialize_succeeds :
  let o1 := initialize granting_platform fresh_recorder in
  returned o1 = Ok tt
  /\ returned (initialize granting_platform (this_after o1)) = Ok tt.
Proof. split; vm_compute; reflexivity. Qed.

(** C8, as the code has it.  [pauseRecording] and [resumeRecording]
    never throw.  Pausing a recording session makes it paused and
    resuming a paused session makes it recording; in every other state
    the call is accepted and the session stays in the state it was in. *)
Theorem pause_resume_never_fail (this : AudioRecorder) :
  returned (pauseRecording this) = Ok tt
  /\ returned (resumeRecording this) = Ok tt
  /\ (phase this = Recording -> phase (this_after (pauseRecording this)) = Paused)
  /\ (phase this = Paused -> phase (this_after (resumeRecording this)) = Recording)
  /\ (phase this <> Recording ->
        phase (this_after (pauseRecording this)) = phase this)
  /\ (phase this <> Paused ->
        phase (this_after (resumeRecording this)) = phase this).
Proof.
  unfold pauseRecording, resumeRecording, modify, phase, initialized.
  cbn [returned this_after].
  destruct this as [c m s p b [] [] sr cc bd]; cbn;
    destruct (bool_decide (is_Some c) && bool_decide (is_Some p));
    split_and!; first [done | congruence].
Qed.

Lemma pause_resume_never_fail_witness :
  phase recording_session = Recording
  /\ phase (this_after (pauseRecording recording_session)) = Paused.
Proof.
  split; [vm_compute; reflexivity|].
  apply (pause_resume_never_fail recording_session). vm_compute; reflexivity.
Defined.

(** C8, as claimed, fails: on a recorder that was never initialized,
    pausing and resuming return normally instead of raising an error. *)
Lemma pause_resume_outside_state_silent :
  phase fresh_recorder = Uninitialized
  /\ returned (pauseRecording fresh_recorder) = Ok tt
  /\ returned (resumeRecording fresh_recorder) = Ok tt.
Proof. split_and!; vm_compute; reflexivity. Qed.

End SessionClaims.

(** ** The conversion of samples *)

Section SampleClaims.

Import Number.

Ltac closed_sample :=
  vm_compute; repeat split; intros; first [reflexivity | discriminate].

(** C2. [createWAVBlob] clamps each sample to [-1, 1] and scales the
    clamped value by 32768 when it is negative and by 32767 otherwise;
    a sample above 1 is stored like 1.0 and a sample below -1 like
    -1.0, so 1.5 and 1.0 give the same 16-bit value, and so do -1.5
    and -1.0. *)
Theorem clamp_then_scale :
  (forall x, sample_of x = clamp (Float32.to_number x))
  /\ (forall x,
        pcmSample_of x
        = if lt (clamp (Float32.to_number x)) (of_Z 0)
          then mul (clamp (Float32.to_number x)) (of_Z 32768)
          else mul (clamp (Float32.to_number x)) (of_Z 32767))
  /\ (forall y,
        is_nan y = false ->
        le (of_Z (-1)) (clamp y) = true /\ le (clamp y) (of_Z 1) = true)
  /\ (forall x,
        lt (of_Z 1) (Float32.to_number x) = true ->
        int16_of x = int16_of f32_one)
  /\ (forall x,
        lt (Float32.to_number x) (of_Z (-1)) = true ->
        int16_of x = int16_of f32_minus_one)
  /\ (forall s m e,
        Float32.is_float32 (S754_finite s m e) = true ->
        dyadic_compare 1 0 m e <> Lt ->
        int16_of (S754_finite s m e)
        = cond_Zopp s (Z.shiftl (Z.pos m * Z.pos (scale s)) e))
  /\ int16_of f32_one_and_half = int16_of f32_one
  /\ int16_of f32_minus_one_and_half = int16_of f32_minus_one
  /\ int16_of f32_one = 32767
  /\ int16_of f32_minus_one = - 32768.
Proof.
  assert (forall x, sample_of x = clamp (Float32.to_number x)) as Hclamp.
  { intros x. apply max_min_clamp. }
  split_and!.
  - exact Hclamp.
  - intros x. unfold pcmSample_of. by rewrite Hclamp.
  - intros y Hy. unfold clamp.
    destruct (lt y (of_Z (-1))) eqn:H1; [by vm_compute|].
    destruct (lt (of_Z 1) y) eqn:H2; [by vm_compute|].
    unfold lt, le, SFltb, SFleb in *.
    rewrite of_Z_one, of_Z_minus_one in *.
    destruct y as [[]|[]| |[] m e]; try done.
    + rewrite (compare_finite_swap true m 4503599627370496 e (-52)).
      destruct (SFcompare (S754_finite true m e)
                  (S754_finite true 4503599627370496 (-52))) as [[]|] eqn:Hc;
        cbn [option_map CompOpp];
        first [done | unfold SFcompare in Hc; discriminate Hc].
    + rewrite (compare_finite_swap false m 4503599627370496 e (-52)) in H2.
      destruct (SFcompare (S754_finite false m e)
                  (S754_finite false 4503599627370496 (-52))) as [[]|] eqn:Hc;
        cbn [option_map CompOpp] in *;
        first [done | unfold SFcompare in Hc; discriminate Hc].
  - intros x Hx. unfold int16_of, pcmSample_of. rewrite Hclamp.
    assert (clamp (Float32.to_number x) = of_Z 1) as ->; [|by vm_compute].
    unfold clamp. rewrite Hx.
    unfold lt, SFltb in *. rewrite of_Z_one, of_Z_minus_one in *.
    by destruct (Float32.to_number x) as [[]|[]| |[] m e].
  - intros x Hx. unfold int16_of, pcmSample_of. rewrite Hclamp.
    assert (clamp (Float32.to_number x) = of_Z (-1)) as ->; [|by vm_compute].
    unfold clamp. by rewrite Hx.
  - intros s m e Hx Hc. unfold int16_of.
    destruct (unclamped_sample s m e Hx Hc) as (-> & Htr & -> & _).
    by rewrite Htr, Pos2Z.inj_mul.
  - by vm_compute.
  - by vm_compute.
  - by vm_compute.
  - by vm_compute.
Qed.

Lemma clamp_then_scale_witness :
  lt (of_Z 1) (Float32.to_number f32_one_and_half) = true
  /\ int16_of f32_one_and_half = int16_of f32_one.
Proof.
  split; [vm_compute; reflexivity|].
  destruct clamp_then_scale as (_ & _ & _ & H & _).
  apply H. vm_compute; reflexivity.
Defined.

(** C10. For every binary32 sample, the value handed to [setInt16]
    has an integer part within [-32768, 32767], so [ToInt16] returns
    that integer part itself, without wrapping; and unless the sample
    is NaN the value lies between -32768 and 32767. *)
Theorem pcm_within_int16 (x : Float32.float32) :
  Float32.is_float32 x = true ->
  - 2 ^ 15 <= truncate (pcmSample_of x) <= 2 ^ 15 - 1
  /\ int16_of x = truncate (pcmSample_of x)
  /\ (is_nan x = false ->
        le (of_Z (-32768)) (pcmSample_of x) = true
        /\ le (pcmSample_of x) (of_Z 32767) = true).
Proof.
  intros Hx. unfold int16_of.
  destruct x as [s|s| |s m e].
  - destruct s; closed_sample.
  - destruct s; closed_sample.
  - closed_sample.
  - destruct (dyadic_compare 1 0 m e) eqn:Hc.
    2: { rewrite pcmSample_of_finite, Hc by done. destruct s; closed_sample. }
    all: destruct (unclamped_sample s m e Hx) as (-> & _ & H16 & Hr & Hlo & Hhi);
           [congruence|]; done.
Qed.

Lemma pcm_within_int16_witness :
  Float32.is_float32 f32_half = true
  /\ int16_of f32_half = truncate (pcmSample_of f32_half).
Proof.
  split; [vm_compute; reflexivity|].
  apply (pcm_within_int16 f32_half). vm_compute; reflexivity.
Defined.

End SampleClaims.
